(** * sawtooth_cli.identity: address derivation, transaction and batch
      construction, policy/role listing

    A shallow embedding of [cli/sawtooth_cli/identity.py].

    Conventions of the model.
    - A Python [str] is a Rocq [string]; each [ascii] stands for the code
      point of the same number, so the model covers the strings whose code
      points are below 256.  [str.encode()] is UTF-8 on that range.
    - A Python [bytes] is a [list byte].
    - [hashlib.sha256] is written out after FIPS 180-4 on 32-bit words held
      in [Z], the wrap-around made explicit.
    - The protobuf serializers, [hashlib.sha512], [sawtooth_signing.sign],
      [base64.b64decode] and the terminal width are collaborators outside
      this file of the repository; they are fields of the class [Collab].
    - [time.time()] and the calls to [signing.sign] are effects; they are
      threaded through a state-and-exception monad over [World]. *)

From Stdlib Require Import ZArith Lia Ascii String.
From Stdlib.Strings Require Import Byte.
From stdpp Require Import base list strings sorting.
Import ListNotations.

Local Open Scope Z_scope.

(* ------------------------------------------------------------------ *)
(** ** SHA-256 (the part of [hashlib] the module relies on)            *)
(* ------------------------------------------------------------------ *)

Module Sha256.

Definition mask32 : Z := 0xffffffff.
Definition wrap (x : Z) : Z := Z.land x mask32.
Definition add32 (x y : Z) : Z := wrap (x + y).
Definition rotr (n x : Z) : Z :=
  Z.lor (Z.shiftr x n) (wrap (Z.shiftl x (32 - n))).
Definition not32 (x : Z) : Z := Z.lxor x mask32.

Definition ch (x y z : Z) : Z := Z.lxor (Z.land x y) (Z.land (not32 x) z).
Definition maj (x y z : Z) : Z :=
  Z.lxor (Z.lxor (Z.land x y) (Z.land x z)) (Z.land y z).
Definition bsig0 (x : Z) : Z := Z.lxor (Z.lxor (rotr 2 x) (rotr 13 x)) (rotr 22 x).
Definition bsig1 (x : Z) : Z := Z.lxor (Z.lxor (rotr 6 x) (rotr 11 x)) (rotr 25 x).
Definition ssig0 (x : Z) : Z := Z.lxor (Z.lxor (rotr 7 x) (rotr 18 x)) (Z.shiftr x 3).
Definition ssig1 (x : Z) : Z := Z.lxor (Z.lxor (rotr 17 x) (rotr 19 x)) (Z.shiftr x 10).

(** FIPS 180-4 defines its constants from the primes: a round constant
    is the first 32 bits of the fractional part of the cube root of a
    prime, an initial register the same of its square root. *)
Definition is_prime (p : Z) : bool :=
  (1 <? p) &&
  forallb (fun d => negb (p mod d =? 0)) (map Z.of_nat (seq 2 (Z.to_nat p - 2))).

Definition primes (n : nat) : list Z :=
  firstn n (List.filter is_prime (map Z.of_nat (seq 2 400))).

(** Largest [r] with [r^3 <= n], for [n] below [2^(3 * bits)]. *)
Definition cube_root (bits : nat) (n : Z) : Z :=
  fold_left (fun r i =>
               let r' := r + 2 ^ Z.of_nat i in
               if r' * r' * r' <=? n then r' else r)
            (rev (seq 0 bits)) 0.

(** Round constants, rounds 0..63. *)
Definition round_constants : list Z :=
  Eval vm_compute in
    map (fun p => wrap (cube_root 40 (p * 2 ^ 96))) (primes 64).

(** The eight working registers / chaining value. *)
Record regs : Type := Regs {
  ra : Z; rb : Z; rc : Z; rd : Z; re : Z; rf : Z; rg : Z; rh : Z }.

Definition regs_of_list (l : list Z) : regs :=
  Regs (nth 0 l 0) (nth 1 l 0) (nth 2 l 0) (nth 3 l 0)
       (nth 4 l 0) (nth 5 l 0) (nth 6 l 0) (nth 7 l 0).

Definition initial : regs :=
  Eval vm_compute in
    regs_of_list (map (fun p => wrap (Z.sqrt (p * 2 ^ 64))) (primes 8)).

(** Padding: 0x80, zero bytes up to 56 modulo 64, then the bit length
    on 8 bytes, big endian. *)
Definition be_bytes (n : nat) (x : Z) : list Z :=
  map (fun i => Z.land (Z.shiftr x (8 * Z.of_nat i)) 0xff) (rev (seq 0 n)).

Definition pad (msg : list Z) : list Z :=
  let len := Z.of_nat (length msg) in
  let zeros := Z.to_nat ((55 - len) mod 64) in
  msg ++ [0x80] ++ repeat 0 zeros ++ be_bytes 8 (8 * len).

Fixpoint chunks (fuel size : nat) (l : list Z) : list (list Z) :=
  match fuel with
  | O => []
  | S fuel' =>
      match l with
      | [] => []
      | _ => firstn size l :: chunks fuel' size (skipn size l)
      end
  end.

Definition word_of_bytes (bs : list Z) : Z :=
  fold_left (fun acc b => Z.lor (Z.shiftl acc 8) b) bs 0.

Definition block_words (block : list Z) : list Z :=
  map word_of_bytes (chunks 16 4 block).

Definition nthw (l : list Z) (i : nat) : Z := nth i l 0.

(** Message schedule: [win] holds the last 16 words. *)
Fixpoint schedule (n : nat) (win : list Z) : list Z :=
  match n with
  | O => []
  | S n' =>
      let w := add32 (add32 (add32 (ssig1 (nthw win 14)) (nthw win 9))
                            (ssig0 (nthw win 1))) (nthw win 0) in
      w :: schedule n' (tl win ++ [w])
  end.

Definition round (s : regs) (kw : Z * Z) : regs :=
  let t1 := add32 (add32 (add32 (add32 (rh s) (bsig1 (re s)))
                                (ch (re s) (rf s) (rg s))) (fst kw)) (snd kw) in
  let t2 := add32 (bsig0 (ra s)) (maj (ra s) (rb s) (rc s)) in
  Regs (add32 t1 t2) (ra s) (rb s) (rc s) (add32 (rd s) t1) (re s) (rf s) (rg s).

Definition compress (hv : regs) (block : list Z) : regs :=
  let w16 := block_words block in
  let w := w16 ++ schedule 48 w16 in
  let s := fold_left round (combine round_constants w) hv in
  Regs (add32 (ra hv) (ra s)) (add32 (rb hv) (rb s))
       (add32 (rc hv) (rc s)) (add32 (rd hv) (rd s))
       (add32 (re hv) (re s)) (add32 (rf hv) (rf s))
       (add32 (rg hv) (rg s)) (add32 (rh hv) (rh s)).

Definition digest (msg : list Z) : regs :=
  let p := pad msg in
  fold_left compress (chunks (length p) 64 p) initial.

(** Lower-case hexadecimal rendering. *)
Definition hex_digit (x : Z) : ascii :=
  let d := Z.land x 0xf in
  if d <? 10 then ascii_of_N (Z.to_N (48 + d)) else ascii_of_N (Z.to_N (87 + d)).

Definition hex_word (x : Z) : string :=
  String (hex_digit (Z.shiftr x 28)) (String (hex_digit (Z.shiftr x 24))
 (String (hex_digit (Z.shiftr x 20)) (String (hex_digit (Z.shiftr x 16))
 (String (hex_digit (Z.shiftr x 12)) (String (hex_digit (Z.shiftr x 8))
 (String (hex_digit (Z.shiftr x 4)) (String (hex_digit x) EmptyString))))))).

Definition hex_regs (s : regs) : string :=
  (hex_word (ra s) ++ hex_word (rb s) ++ hex_word (rc s) ++ hex_word (rd s) ++
   hex_word (re s) ++ hex_word (rf s) ++ hex_word (rg s) ++ hex_word (rh s))%string.

(** [hashlib.sha256(data).hexdigest()] *)
Definition hexdigest (data : list byte) : string :=
  hex_regs (digest (map (fun b => Z.of_N (Byte.to_N b)) data)).

End Sha256.

(* ------------------------------------------------------------------ *)
(** ** Python string primitives                                        *)
(* ------------------------------------------------------------------ *)

Module Py.

(** [str.encode()]: UTF-8 of the code points below 256. *)
Definition encode_char (c : ascii) : list byte :=
  let n := N_of_ascii c in
  if (n <? 128)%N then [byte_of_ascii c]
  else [byte_of_ascii (ascii_of_N (192 + n / 64));
        byte_of_ascii (ascii_of_N (128 + n mod 64))].

Definition encode (s : string) : list byte :=
  flat_map encode_char (list_ascii_of_string s).

(** [s.split(sep, maxsplit)] for a one-character separator;
    [None] is the default [maxsplit=-1] (no bound). *)
Definition may_split (budget : option nat) : bool :=
  match budget with
  | None => true
  | Some O => false
  | Some (S _) => true
  end.

Definition spend (budget : option nat) : option nat :=
  match budget with
  | None => None
  | Some n => Some (Nat.pred n)
  end.

Fixpoint split (sep : ascii) (budget : option nat) (s : string) : list string :=
  match s with
  | EmptyString => [EmptyString]
  | String c s' =>
      if may_split budget && Ascii.eqb c sep
      then EmptyString :: split sep (spend budget) s'
      else match split sep budget s' with
           | p :: ps => String c p :: ps
           | [] => [String c EmptyString]
           end
  end.

(** [s[:n]] *)
Definition upto (n : nat) (s : string) : string := substring 0 n s.

(** [sep.join(parts)] *)
Definition join (sep : string) (parts : list string) : string :=
  String.concat sep parts.

End Py.

(* ------------------------------------------------------------------ *)
(** ** Module constants and the address codec                          *)
(* ------------------------------------------------------------------ *)

Local Open Scope string_scope.

Definition IDENTITY_NAMESPACE : string := "00001d".
Definition _MIN_PRINT_WIDTH : Z := 15.
Definition _MAX_KEY_PARTS : nat := 4.
Definition _FIRST_ADDRESS_PART_SIZE : nat := 14.
Definition _ADDRESS_PART_SIZE : nat := 16.
Definition _POLICY_PREFIX : string := "00".
Definition _ROLE_PREFIX : string := "01".

Definition _to_hash (value : string) : string :=
  Sha256.hexdigest (Py.encode value).

Definition _EMPTY_PART : string := Py.upto _ADDRESS_PART_SIZE (_to_hash "").

Definition _role_to_address (role_name : string) : string :=
  let key_parts := Py.split "." (Some (_MAX_KEY_PARTS - 1)%nat) role_name in
  let addr_parts :=
    match key_parts with
    | [] => []   (* key_parts[0] on an empty list; [split] never returns one *)
    | k0 :: ks =>
        ([Py.upto _FIRST_ADDRESS_PART_SIZE (_to_hash k0)]
           ++ map (fun x => Py.upto _ADDRESS_PART_SIZE (_to_hash x)) ks)%list
    end in
  let addr_parts :=
    (addr_parts ++ repeat _EMPTY_PART (_MAX_KEY_PARTS - length addr_parts))%list in
  IDENTITY_NAMESPACE ++ _ROLE_PREFIX ++ Py.join "" addr_parts.

Definition _policy_to_address (policy_name : string) : string :=
  IDENTITY_NAMESPACE ++ _POLICY_PREFIX ++ Py.upto 62 (_to_hash policy_name).

(* ------------------------------------------------------------------ *)
(** ** Data model (the protobuf messages the module builds and reads)  *)
(* ------------------------------------------------------------------ *)

Definition bytes : Type := list byte.

Module Policy.
(** [Policy.Type] *)
Inductive Type_ : Set := ENTRY_TYPE_UNSET | PERMIT_KEY | DENY_KEY.

(** [Policy.Type.Name] *)
Definition Type_Name (t : Type_) : string :=
  match t with
  | ENTRY_TYPE_UNSET => "ENTRY_TYPE_UNSET"
  | PERMIT_KEY => "PERMIT_KEY"
  | DENY_KEY => "DENY_KEY"
  end.

Record Entry : Type := mkEntry { type : Type_; key : string }.
Record t : Type := mk { name : string; entries : list Entry }.
End Policy.

Module Role.
Record t : Type := mk { name : string; policy_name : string }.
End Role.

Module IdentityPayload.
Inductive Type_ : Set := POLICY | ROLE.
Record t : Type := mk { type : Type_; data : bytes }.
End IdentityPayload.

Module TransactionHeader.
Record t : Type := mk {
  signer_pubkey : string;
  family_name : string;
  family_version : string;
  inputs : list string;
  outputs : list string;
  dependencies : list string;
  payload_encoding : string;
  payload_sha512 : string;
  batcher_pubkey : string;
  nonce : bytes }.
End TransactionHeader.

Module Transaction.
Record t : Type := mk {
  header : bytes;
  payload : bytes;
  header_signature : string }.
End Transaction.

Module BatchHeader.
Record t : Type := mk {
  signer_pubkey : string;
  transaction_ids : list string }.
End BatchHeader.

Module Batch.
Record t : Type := mk {
  header : bytes;
  header_signature : string;
  transactions : list Transaction.t }.
End Batch.

(** What [RestClient.list_state] returns: the head block id and, per
    address, the base64 text of a serialized list. *)
Record State : Type := mkState { head : string; state_data : list string }.

(* ------------------------------------------------------------------ *)
(** ** Exceptions, the world, and the monad of the builders            *)
(* ------------------------------------------------------------------ *)

Inductive exn : Type :=
| IndexError
| AssertionError (msg : string)
| DecodeError.

Inductive result (A : Type) : Type :=
| Ok (a : A)
| Raise (e : exn).
Arguments Ok {A} a.
Arguments Raise {A} e.

#[global] Instance result_ret : MRet result := fun A a => Ok a.
#[global] Instance result_bind : MBind result := fun A B f r =>
  match r with
  | Ok a => f a
  | Raise e => Raise e
  end.

(** [l[i]] for a non-negative literal index. *)
Definition index {A : Type} (l : list A) (i : nat) : result A :=
  match l !! i with
  | Some x => Ok x
  | None => Raise IndexError
  end.

(** A [for] loop whose body may raise: the accumulator is threaded
    from left to right and the first exception ends the loop. *)
Fixpoint for_each {A S : Type} (body : S -> A -> result S) (xs : list A) (s : S)
  : result S :=
  match xs with
  | [] => Ok s
  | x :: xs' => s' ← body s x; for_each body xs' s'
  end.

(** The world a builder runs in: how many times the clock was read and
    which messages were handed to [signing.sign], oldest first. *)
Record World : Type := mkWorld { ticks : nat; signed : list bytes }.

Definition M (A : Type) : Type := World -> result A * World.

#[global] Instance M_ret : MRet M := fun A a w => (Ok a, w).
#[global] Instance M_bind : MBind M := fun A B f m w =>
  match m w with
  | (Ok a, w') => f a w'
  | (Raise e, w') => (Raise e, w')
  end.

Definition lift {A : Type} (r : result A) : M A := fun w => (r, w).

(** Collaborators that live outside [identity.py]. *)
Class Collab : Type := {
  (** [SerializeToString] of each message *)
  policy_bytes : Policy.t -> bytes;
  role_bytes : Role.t -> bytes;
  payload_bytes : IdentityPayload.t -> bytes;
  txn_header_bytes : TransactionHeader.t -> bytes;
  batch_header_bytes : BatchHeader.t -> bytes;
  (** [hashlib.sha512(data).hexdigest()] *)
  sha512_hexdigest : bytes -> string;
  (** [signing.sign(message, signing_key)] *)
  signing_sign : bytes -> string -> string;
  (** [time.time().hex()] at the n-th reading of the clock *)
  time_hex : nat -> string;
  (** [b64decode] followed by [PolicyList.ParseFromString] / [RoleList...] *)
  parse_policy_list : string -> result (list Policy.t);
  parse_role_list : string -> result (list Role.t);
  (** [tty.width()] *)
  tty_width : Z;
  (** whether [yaml.dump] sorts the keys of a mapping (its [sort_keys]
      default, which the module does not set) *)
  yaml_sort_keys : bool
}.

Section Builders.
Context `{Collab}.

(** [time.time().hex().encode()] *)
Definition fresh_nonce : M bytes := fun w =>
  (Ok (Py.encode (time_hex (ticks w))), mkWorld (S (ticks w)) (signed w)).

(** [signing.sign(message, signing_key)], recorded in the world *)
Definition sign (message : bytes) (signing_key : string) : M string := fun w =>
  (Ok (signing_sign message signing_key),
   mkWorld (ticks w) (signed w ++ [message])%list).

(** Body of the loop over [rules] in [_create_policy_txn]. *)
Definition rule_step (entries : list Policy.Entry) (rule : string)
  : result (list Policy.Entry) :=
  let rule := Py.split " " None rule in
  r0 ← index rule 0;
  if String.eqb r0 "PERMIT_KEY" then
    k ← index rule 1;
    Ok (entries ++ [Policy.mkEntry Policy.PERMIT_KEY k])%list
  else if String.eqb r0 "DENY_KEY" then
    k ← index rule 1;
    Ok (entries ++ [Policy.mkEntry Policy.DENY_KEY k])%list
  else Ok entries.

Definition policy_entries (rules : list string) : result (list Policy.Entry) :=
  for_each rule_step rules [].

(** The header [_create_policy_txn] fills in. *)
Definition policy_txn_header (pubkey policy_name : string)
    (payload : IdentityPayload.t) (nonce : bytes) : TransactionHeader.t :=
  let policy_address := _policy_to_address policy_name in
  {| TransactionHeader.signer_pubkey := pubkey;
     TransactionHeader.family_name := "sawtooth_identity";
     TransactionHeader.family_version := "1.0";
     TransactionHeader.inputs := [policy_address];
     TransactionHeader.outputs := [policy_address];
     TransactionHeader.dependencies := [];
     TransactionHeader.payload_encoding := "application/protobuf";
     TransactionHeader.payload_sha512 := sha512_hexdigest (payload_bytes payload);
     TransactionHeader.batcher_pubkey := pubkey;
     TransactionHeader.nonce := nonce |}.

Definition _create_policy_txn (pubkey signing_key policy_name : string)
    (rules : list string) : M Transaction.t :=
  entries ← lift (policy_entries rules);
  let policy := Policy.mk policy_name entries in
  let payload := IdentityPayload.mk IdentityPayload.POLICY (policy_bytes policy) in
  nonce ← fresh_nonce;
  let header := policy_txn_header pubkey policy_name payload nonce in
  let header_bytes := txn_header_bytes header in
  signature ← sign header_bytes signing_key;
  mret (Transaction.mk header_bytes (payload_bytes payload) signature).

(** The header [_create_role_txn] fills in. *)
Definition role_txn_header (pubkey role_name policy_name : string)
    (payload : IdentityPayload.t) (nonce : bytes) : TransactionHeader.t :=
  let policy_address := _policy_to_address policy_name in
  let role_address := _role_to_address role_name in
  {| TransactionHeader.signer_pubkey := pubkey;
     TransactionHeader.family_name := "sawtooth_identity";
     TransactionHeader.family_version := "1.0";
     TransactionHeader.inputs := [policy_address; role_address];
     TransactionHeader.outputs := [role_address];
     TransactionHeader.dependencies := [];
     TransactionHeader.payload_encoding := "application/protobuf";
     TransactionHeader.payload_sha512 := sha512_hexdigest (payload_bytes payload);
     TransactionHeader.batcher_pubkey := pubkey;
     TransactionHeader.nonce := nonce |}.

Definition _create_role_txn (pubkey signing_key role_name policy_name : string)
  : M Transaction.t :=
  let role := Role.mk role_name policy_name in
  let payload := IdentityPayload.mk IdentityPayload.ROLE (role_bytes role) in
  nonce ← fresh_nonce;
  let header := role_txn_header pubkey role_name policy_name payload nonce in
  let header_bytes := txn_header_bytes header in
  signature ← sign header_bytes signing_key;
  mret (Transaction.mk header_bytes (payload_bytes payload) signature).

Definition _create_batch (pubkey signing_key : string)
    (transactions : list Transaction.t) : M Batch.t :=
  let txn_ids := map Transaction.header_signature transactions in
  let batch_header := batch_header_bytes (BatchHeader.mk pubkey txn_ids) in
  signature ← sign batch_header signing_key;
  mret (Batch.mk batch_header signature transactions).

End Builders.

(* ------------------------------------------------------------------ *)
(** ** Listing                                                         *)
(* ------------------------------------------------------------------ *)

(** [l.sort(key=...)] with string keys: a stable sort, ascending in the
    code-point order of the keys. *)
Section SortByKey.
Context {A : Type} (key : A -> string).

Fixpoint insert_by (x : A) (l : list A) : list A :=
  match l with
  | [] => [x]
  | y :: l' =>
      if String.leb (key x) (key y) then x :: y :: l' else y :: insert_by x l'
  end.

Definition sort_by (l : list A) : list A := foldr insert_by [] l.
End SortByKey.

(** A [dict] with string keys and values: the items in insertion
    order.  Assigning to a key that is present replaces its value where
    it stands; a new key goes to the end. *)
Definition dict : Type := list (string * string).

Fixpoint dict_set (k v : string) (d : dict) : dict :=
  match d with
  | [] => [(k, v)]
  | (k', v') :: d' =>
      if String.eqb k' k then (k', v) :: d' else (k', v') :: dict_set k v d'
  end.

(** The order in which a serializer writes the items of a mapping:
    by ascending key when it sorts the keys, as inserted otherwise. *)
Definition dump_order (sort_keys : bool) (mapping : dict) : dict :=
  if sort_keys then sort_by fst mapping else mapping.

(** What a listing command writes to standard output.
    - [Printed]: the default format, one [(name, value)] per [print]
      call, [name] and [value] being the two arguments of [format];
    - [CsvRows]: the rows handed to [writer.writerow], header first;
    - [JsonDoc] and [YamlDoc]: the snapshot given to [json.dumps] and
      to [yaml.dump]: its head, the second key, and the items under
      that key in the order the serializer writes them.
    For the csv format these are the rows the command hands to the
    writer; which of them the writer takes is decided where the command
    is run. *)
Inductive Output : Type :=
| Printed (calls : list (string * string))
| CsvRows (rows : list (list string))
| JsonDoc (head : string) (section : string) (items : dict)
| YamlDoc (head : string) (section : string) (items : dict).

(** The names in the order in which an output shows them. *)
Definition names_shown (o : Output) : list string :=
  match o with
  | Printed calls => map fst calls
  | CsvRows rows => map (fun row => List.hd "" row) (tl rows)
  | JsonDoc _ _ items | YamlDoc _ _ items => map fst items
  end.

Definition nl : string := String (ascii_of_nat 10) "".

Section Listing.
Context `{Collab}.

(** The nested loops filling [printable_policies] / [printable_roles]. *)
Definition accumulate {A : Type} (parse : string -> result (list A))
    (state_values : list string) : result (list A) :=
  for_each (fun printable state_value =>
              parsed ← parse state_value;
              Ok (printable ++ parsed)%list)
           state_values [].

(** [tty_width - len(name) - 3], not below the minimum *)
Definition value_width (name : string) : Z :=
  let width := (tty_width - Z.of_nat (String.length name) - 3)%Z in
  if (width >? _MIN_PRINT_WIDTH)%Z then width else _MIN_PRINT_WIDTH.

(** [s[:width] + '...' if len(s) > width else s] *)
Definition clip (width : Z) (s : string) : string :=
  if (Z.of_nat (String.length s) >? width)%Z
  then Py.upto (Z.to_nat width) s ++ "..."
  else s.

Definition entry_text (entry : Policy.Entry) : string :=
  Policy.Type_Name (Policy.type entry) ++ " " ++ Policy.key entry.

Definition policy_default_value (policy : Policy.t) : string :=
  let width := value_width (Policy.name policy) in
  fold_left (fun value entry =>
               value ++ clip width ("    " ++ entry_text entry) ++ nl)
            (Policy.entries policy) ("Entries:" ++ nl).

Definition policy_csv_row (policy : Policy.t) : list string :=
  fold_left (fun output entry => (output ++ [entry_text entry])%list)
            (Policy.entries policy) [Policy.name policy].

Definition policy_doc_value (policy : Policy.t) : string :=
  fold_left (fun value entry => value ++ entry_text entry ++ " ")
            (Policy.entries policy) "Entries: ".

Definition _do_identity_policy_list (state : State) (format : string)
  : result Output :=
  printable_policies ← accumulate parse_policy_list (state_data state);
  let printable_policies := sort_by Policy.name printable_policies in
  if String.eqb format "default" then
    Ok (Printed (map (fun policy => (Policy.name policy, policy_default_value policy))
                     printable_policies))
  else if String.eqb format "csv" then
    Ok (CsvRows (["POLICY NAME"; "ENTRIES"] :: map policy_csv_row printable_policies))
  else if String.eqb format "json" || String.eqb format "yaml" then
    let output :=
      fold_left (fun output policy =>
                   dict_set (Policy.name policy) (policy_doc_value policy) output)
                printable_policies ([] : dict) in
    if String.eqb format "json"
    then Ok (JsonDoc (head state) "policies" (dump_order true output))
    else Ok (YamlDoc (head state) "policies" (dump_order yaml_sort_keys output))
  else Raise (AssertionError ("Unknown format " ++ format)).

Definition role_default_value (role : Role.t) : string :=
  clip (value_width (Role.name role)) (Role.policy_name role).

Definition _do_identity_role_list (state : State) (format : string)
  : result Output :=
  printable_roles ← accumulate parse_role_list (state_data state);
  let printable_roles := sort_by Role.name printable_roles in
  if String.eqb format "default" then
    Ok (Printed (map (fun role => (Role.name role, role_default_value role))
                     printable_roles))
  else if String.eqb format "csv" then
    Ok (CsvRows (["KEY"; "VALUE"]
                   :: map (fun role => [Role.name role; Role.policy_name role])
                          printable_roles))
  else if String.eqb format "json" || String.eqb format "yaml" then
    let roles :=
      fold_left (fun roles role =>
                   dict_set (Role.name role) (Role.policy_name role) roles)
                printable_roles ([] : dict) in
    if String.eqb format "json"
    then Ok (JsonDoc (head state) "roles" (dump_order true roles))
    else Ok (YamlDoc (head state) "roles" (dump_order yaml_sort_keys roles))
  else Raise (AssertionError ("Unknown format " ++ format)).

End Listing.

(* ------------------------------------------------------------------ *)
(** ** Vocabulary of the statements                                    *)
(* ------------------------------------------------------------------ *)

(** Lower-case hexadecimal digits, as [hexdigest] writes them. *)
Definition is_hex_digit (c : ascii) : bool :=
  let n := N_of_ascii c in
  ((48 <=? n) && (n <=? 57) || (97 <=? n) && (n <=? 102))%N.

Fixpoint is_hex (s : string) : bool :=
  match s with
  | EmptyString => true
  | String c s' => is_hex_digit c && is_hex s'
  end.

(** Number of occurrences of a character. *)
Fixpoint count_char (sep : ascii) (s : string) : nat :=
  match s with
  | EmptyString => 0
  | String c s' => ((if Ascii.eqb c sep then 1 else 0) + count_char sep s')%nat
  end.

(** The dot-delimited components a role name is cut into. *)
Definition key_parts (role_name : string) : list string :=
  Py.split "." (Some 3%nat) role_name.

(** Width of the i-th slot of a role address: 14, 16, 16, 16. *)
Definition slot_size (i : nat) : nat :=
  match i with
  | O => _FIRST_ADDRESS_PART_SIZE
  | S _ => _ADDRESS_PART_SIZE
  end.

(** The i-th slot of an address: the characters after the 8 of the
    namespace and the type prefix, cut 14, 16, 16, 16. *)
Definition segment (i : nat) (address : string) : string :=
  match i with
  | O => substring 8 14 address
  | S k => substring (22 + 16 * k) 16 address
  end.

(** The truncated hash that fills slot [i] for a part. *)
Definition short_hash (i : nat) (part : string) : string :=
  Py.upto (slot_size i) (_to_hash part).


(** Two names cut into equally many parts that differ at part [i] and
    at no other. *)
Definition differ_only_at (i : nat) (n1 n2 : string) : Prop :=
  length (key_parts n1) = length (key_parts n2) /\
  (i < length (key_parts n1))%nat /\
  key_parts n1 !! i <> key_parts n2 !! i /\
  forall j, j <> i -> key_parts n1 !! j = key_parts n2 !! j.

(** "Changing one component changes the corresponding segment and no
    other", for every pair of names. *)
Definition one_component_one_segment : Prop :=
  forall (n1 n2 : string) (i : nat),
    n1 <> "" -> n2 <> "" -> differ_only_at i n1 n2 ->
    segment i (_role_to_address n1) <> segment i (_role_to_address n2) /\
    forall j, (j < 4)%nat -> j <> i ->
      segment j (_role_to_address n1) = segment j (_role_to_address n2).

(** The four fields [_role_to_address] writes, by the parts of the name. *)
Definition field (parts : list string) (i : nat) : string :=
  match parts !! i with
  | Some p => short_hash i p
  | None => _EMPTY_PART
  end.

(** The first space-separated token of a rule. *)
Definition first_token (rule : string) : string :=
  List.hd "" (Py.split " " None rule).

(** The rule starts with one of the two keywords. *)
Definition is_key_rule (rule : string) : bool :=
  String.eqb (first_token rule) "PERMIT_KEY" || String.eqb (first_token rule) "DENY_KEY".

(** The rule has at least two space-separated tokens. *)
Definition has_key (rule : string) : bool :=
  (2 <=? length (Py.split " " None rule))%nat.

(** Every keyword rule of the list comes with a key. *)
Definition keys_present (rules : list string) : bool :=
  forallb (fun rule => implb (is_key_rule rule) (has_key rule)) rules.

(** The entry a rule stands for: keyword and second token. *)
Definition rule_entry (rule : string) : option Policy.Entry :=
  match Py.split " " None rule with
  | t :: k :: _ =>
      if String.eqb t "PERMIT_KEY" then Some (Policy.mkEntry Policy.PERMIT_KEY k)
      else if String.eqb t "DENY_KEY" then Some (Policy.mkEntry Policy.DENY_KEY k)
      else None
  | _ => None
  end.

(** The entry type a keyword names. *)
Definition keyword_type (token : string) : Policy.Type_ :=
  if String.eqb token "PERMIT_KEY" then Policy.PERMIT_KEY else Policy.DENY_KEY.

(** A stand-in for the collaborators, enough to run the builders and
    the listing on examples.  No statement below is about it. *)
Definition stand_in : Collab := {|
  policy_bytes p :=
    Py.encode (String.concat ";"
      (Policy.name p :: map (fun e => Policy.Type_Name (Policy.type e) ++ "=" ++ Policy.key e)
                            (Policy.entries p)));
  role_bytes r := Py.encode (Role.name r ++ ";" ++ Role.policy_name r);
  payload_bytes pl :=
    (match IdentityPayload.type pl with
     | IdentityPayload.POLICY => x01
     | IdentityPayload.ROLE => x02
     end :: IdentityPayload.data pl)%list;
  txn_header_bytes h :=
    (Py.encode (String.concat ";"
       ([TransactionHeader.signer_pubkey h; TransactionHeader.family_name h;
         TransactionHeader.family_version h]
        ++ TransactionHeader.inputs h ++ TransactionHeader.outputs h
        ++ TransactionHeader.dependencies h
        ++ [TransactionHeader.payload_encoding h; TransactionHeader.payload_sha512 h;
            TransactionHeader.batcher_pubkey h])%list)
     ++ TransactionHeader.nonce h)%list;
  batch_header_bytes bh :=
    Py.encode (String.concat ";"
      (BatchHeader.signer_pubkey bh :: BatchHeader.transaction_ids bh));
  sha512_hexdigest data := Sha256.hexdigest data ++ Sha256.hexdigest (x00 :: data);
  signing_sign message signing_key :=
    Sha256.hexdigest (Py.encode signing_key ++ message)%list;
  time_hex n := "0x1.a" ++ String (ascii_of_nat (48 + n mod 10)) "p+30";
  parse_policy_list blob :=
    Ok (map (fun n => Policy.mk n []) (Py.split "," None blob));
  parse_role_list blob :=
    Ok (map (fun n => Role.mk n "policy_1") (Py.split "," None blob));
  tty_width := 80;
  yaml_sort_keys := true
|}.

(** The fixed fields of an identity transaction header, its signer and
    its address sets. *)
Definition identity_header (h : TransactionHeader.t) (pubkey : string)
    (inputs outputs : list string) : Prop :=
  TransactionHeader.family_name h = "sawtooth_identity" /\
  TransactionHeader.family_version h = "1.0" /\
  TransactionHeader.dependencies h = [] /\
  TransactionHeader.signer_pubkey h = pubkey /\
  TransactionHeader.batcher_pubkey h = pubkey /\
  TransactionHeader.signer_pubkey h = TransactionHeader.batcher_pubkey h /\
  TransactionHeader.inputs h = inputs /\
  TransactionHeader.outputs h = outputs.

(** A run of the policy builder on three rules, the second of which is
    no keyword rule, in the stand-in environment. *)
Definition example_rules : list string := ["PERMIT_KEY abc"; "note"; "DENY_KEY d"].

Definition example_policy_run : result Transaction.t * World :=
  @_create_policy_txn stand_in "pub" "priv" "policy_1" example_rules (mkWorld 0 []).

(** The names are shown in ascending order, they are the names
    fetched, and 'alpha' comes before 'zeta'. *)
Definition shown_in_name_order (names : list string) (out : Output) : Prop :=
  StronglySorted String.le (names_shown out) /\
  (forall n, n ∈ names_shown out <-> n ∈ names) /\
  (forall i j, names_shown out !! i = Some "alpha" ->
               names_shown out !! j = Some "zeta" -> (i < j)%nat).

(** The order of a sort by key. *)
Definition key_le {A : Type} (key : A -> string) (a b : A) : Prop :=
  String.le (key a) (key b).

(** The formats the parser lets through. *)
Definition known_format (format : string) : bool :=
  String.eqb format "default" || String.eqb format "csv" ||
  String.eqb format "json" || String.eqb format "yaml".

(** A ledger state of two blobs, the first holding 'zeta' before 'alpha'. *)
Definition example_state : State := mkState "block_7" ["zeta,alpha"; "mid"].

(* ------------------------------------------------------------------ *)
(** ** Further vocabulary                                              *)
(* ------------------------------------------------------------------ *)

(** The subtrees the two listing commands ask the ledger for. *)
Definition policy_subtree : string := IDENTITY_NAMESPACE ++ _POLICY_PREFIX.
Definition role_subtree : string := IDENTITY_NAMESPACE ++ _ROLE_PREFIX.

(** Reading one encoded code point back from the front of a byte
    sequence: the inverse of [Py.encode_char] on its range. *)
Definition decode_head (bs : list byte) : option (ascii * list byte) :=
  match bs with
  | [] => None
  | b :: rest =>
      let n := Byte.to_N b in
      if (n <? 128)%N then Some (ascii_of_byte b, rest)
      else match rest with
           | [] => None
           | b' :: rest' =>
               Some (ascii_of_N ((n - 192) * 64 + (Byte.to_N b' - 128)), rest')
           end
  end.

(** Number of characters of a role address that cover its first [k]
    slots, the namespace and the prefix included. *)
Definition covered (k : nat) : nat :=
  match k with
  | O => 8
  | S k' => 8 + 14 + 16 * k'
  end.

(** A listed entry that can be given back as a rule: its type is one
    of the two keywords and its key holds no space. *)
Definition listable (e : Policy.Entry) : Prop :=
  Policy.type e <> Policy.ENTRY_TYPE_UNSET /\ count_char " " (Policy.key e) = 0%nat.

(* ------------------------------------------------------------------ *)
(** ** The commands                                                    *)
(* ------------------------------------------------------------------ *)

Module BatchList.
Record t : Type := mk { batches : list Batch.t }.
End BatchList.

(** The parsed command line.  [key], [output] and [url] may be [None];
    an attribute a subparser does not define is not modelled. *)
Module Args.
Record t : Type := mk {
  subcommand : string;
  policy_cmd : string;
  role_cmd : string;
  key : option string;
  output : option string;
  url : option string;
  name : string;
  rule : list string;
  policy : string;
  format : string }.
End Args.

(** [str.isspace] on the code points below 256. *)
Definition is_space (c : ascii) : bool :=
  let n := N_of_ascii c in
  ((9 <=? n) && (n <=? 13) || (28 <=? n) && (n <=? 32) || (n =? 133) || (n =? 160))%N.

Fixpoint str_lstrip (s : string) : string :=
  match s with
  | EmptyString => EmptyString
  | String c s' => if is_space c then str_lstrip s' else s
  end.

Fixpoint str_rstrip (s : string) : string :=
  match s with
  | EmptyString => EmptyString
  | String c s' =>
      match str_rstrip s' with
      | EmptyString => if is_space c then EmptyString else String c EmptyString
      | r => String c r
      end
  end.

(** [s.strip()] *)
Definition str_strip (s : string) : string := str_rstrip (str_lstrip s).

Definition starts_with_sep (b : string) : bool :=
  match b with
  | String c _ => Ascii.eqb c "/"
  | EmptyString => false
  end.

Fixpoint ends_with_sep (path : string) : bool :=
  match path with
  | EmptyString => false
  | String c EmptyString => Ascii.eqb c "/"
  | String _ path' => ends_with_sep path'
  end.

(** One turn of the loop of POSIX [os.path.join]. *)
Definition path_join_step (path b : string) : string :=
  if starts_with_sep b then b
  else if String.eqb path "" || ends_with_sep path then path ++ b
  else path ++ "/" ++ b.

(** [os.path.join(a, *p)] *)
Definition os_path_join (a : string) (p : list string) : string :=
  fold_left path_join_step p a.

(** What a command can end with besides a result: an exception of the
    builders and the listing, or the module's [CliException]. *)
Inductive failure : Type :=
| Exn (e : exn)
| CliException (msg : string).

Inductive outcome (A : Type) : Type :=
| Done (a : A)
| Failed (f : failure).
Arguments Done {A} a.
Arguments Failed {A} f.

(** The machine a command runs on: the world of the builders, the
    files written, the batch lists sent (with the URL), and what was
    printed, each oldest first. *)
Record Host : Type := mkHost {
  world : World;
  written : list (string * bytes);
  sent : list (string * BatchList.t);
  printed : list Output }.

Definition C (A : Type) : Type := Host -> outcome A * Host.

#[global] Instance C_ret : MRet C := fun A a h => (Done a, h).
#[global] Instance C_bind : MBind C := fun A B f m h =>
  match m h with
  | (Done a, h') => f a h'
  | (Failed e, h') => (Failed e, h')
  end.

Definition fail {A : Type} (f : failure) : C A := fun h => (Failed f, h).

(** A builder run on the world of the host. *)
Definition run_builder {A : Type} (m : M A) : C A := fun h =>
  match m (world h) with
  | (Ok a, w) => (Done a, mkHost w (written h) (sent h) (printed h))
  | (Raise e, w) => (Failed (Exn e), mkHost w (written h) (sent h) (printed h))
  end.

(** Collaborators of the commands that live outside [identity.py]. *)
Class Platform : Type := {
  (** [os.path.expanduser('~')] *)
  home_dir : string;
  (** [getpass.getuser()] *)
  user_name : string;
  (** [open(filename, 'r').read()]: the text, or the text of the IOError *)
  read_text : string -> string + string;
  (** [signing.generate_pubkey(signing_key)] *)
  generate_pubkey : string -> string;
  (** [BatchList.SerializeToString] *)
  batch_list_bytes : BatchList.t -> bytes;
  (** writing a file opened with 'wb': [None], or the text of the IOError *)
  write_bytes : string -> bytes -> option string;
  (** [RestClient(url).send_batches(batch_list)]: [None], or the
      message of the CliException it raises *)
  send_batches : string -> BatchList.t -> option string;
  (** [RestClient(url).list_state(subtree=...)]: the state, or the
      message of the CliException it raises *)
  list_state : option string -> string -> string + State
}.

(** The csv writer on standard output, outside [identity.py]:
    whether [writer.writerow] takes a row.  When it does not, it raises
    csv.Error and nothing of that row is written. *)
Class Console : Type := {
  csv_accepts : list string -> bool
}.

(** The rows that reach standard output: those before the first row
    the writer refuses. *)
Fixpoint rows_written `{Console} (rows : list (list string)) : list (list string) :=
  match rows with
  | [] => []
  | row :: rows' => if csv_accepts row then row :: rows_written rows' else []
  end.

Section Commands.
Context `{Collab} `{Platform} `{Console}.

(** The file [_read_signing_keys] opens. *)
Definition key_filename (key_file : option string) : string :=
  match key_file with
  | Some filename => filename
  | None => os_path_join home_dir [".sawtooth"; "keys"; user_name ++ ".priv"]
  end.

Definition _read_signing_keys (key_file : option string) : C (string * string) :=
  let filename := key_filename key_file in
  match read_text filename with
  | inl content =>
      let signing_key := str_strip content in
      let pubkey := generate_pubkey signing_key in
      mret (pubkey, signing_key)
  | inr e => fail (CliException ("Unable to read key file: " ++ e))
  end.

(** The end of both create commands, the same text in each: the batch
    list goes to the output file if one is named, else to the URL. *)
Definition deliver (args : Args.t) (batch_list : BatchList.t) : C unit :=
  match Args.output args with
  | Some path =>
      let data := batch_list_bytes batch_list in
      match write_bytes path data with
      | None => fun h =>
          (Done tt, mkHost (world h) (written h ++ [(path, data)]) (sent h) (printed h))
      | Some e => fail (CliException ("Unable to write to batch file: " ++ e))
      end
  | None =>
      match Args.url args with
      | Some url =>
          match send_batches url batch_list with
          | None => fun h =>
              (Done tt, mkHost (world h) (written h) (sent h ++ [(url, batch_list)]) (printed h))
          | Some msg => fail (CliException msg)
          end
      | None => fail (Exn (AssertionError "No target for create set."))
      end
  end.

Definition _do_identity_policy_create (args : Args.t) : C unit :=
  keys ← _read_signing_keys (Args.key args);
  let pubkey := fst keys in
  let signing_key := snd keys in
  txn ← run_builder (_create_policy_txn pubkey signing_key (Args.name args) (Args.rule args));
  batch ← run_builder (_create_batch pubkey signing_key [txn]);
  deliver args (BatchList.mk [batch]).

Definition _do_identity_role_create (args : Args.t) : C unit :=
  keys ← _read_signing_keys (Args.key args);
  let pubkey := fst keys in
  let signing_key := snd keys in
  txn ← run_builder (_create_role_txn pubkey signing_key (Args.name args) (Args.policy args));
  batch ← run_builder (_create_batch pubkey signing_key [txn]);
  deliver args (BatchList.mk [batch]).

(** A listing command from its first line: the state is fetched for
    the subtree and listed, and the output goes to standard output.
    The entry added to [printed] is what reached standard output by the
    end of the command: the [print] calls of the loop in their order,
    the rows the csv writer took, or the one document.  The csv rows go
    out one by one, the header first, inside [try]: a row the writer
    refuses ends the command with 'Error writing CSV' after the rows
    before it were written.  Fetching, decoding and the choice of the
    format come before the first write.  An error of standard output
    itself is not modelled. *)
Definition list_command (subtree : string)
    (listing : State -> string -> result Output) (args : Args.t) : C unit :=
  match list_state (Args.url args) subtree with
  | inr state =>
      match listing state (Args.format args) with
      | Ok (CsvRows rows) => fun h =>
          if forallb csv_accepts rows
          then (Done tt,
                mkHost (world h) (written h) (sent h) (printed h ++ [CsvRows rows]))
          else (Failed (CliException "Error writing CSV"),
                mkHost (world h) (written h) (sent h)
                       (printed h ++ [CsvRows (rows_written rows)]))
      | Ok out => fun h =>
          (Done tt, mkHost (world h) (written h) (sent h) (printed h ++ [out]))
      | Raise e => fail (Exn e)
      end
  | inl msg => fail (CliException msg)
  end.

Definition policy_list_command : Args.t -> C unit :=
  list_command (IDENTITY_NAMESPACE ++ _POLICY_PREFIX) _do_identity_policy_list.

Definition role_list_command : Args.t -> C unit :=
  list_command (IDENTITY_NAMESPACE ++ _ROLE_PREFIX) _do_identity_role_list.

Definition double_quote : string := String (ascii_of_nat 34) "".

Definition do_identity (args : Args.t) : C unit :=
  if String.eqb (Args.subcommand args) "policy" && String.eqb (Args.policy_cmd args) "create"
  then _do_identity_policy_create args
  else if String.eqb (Args.subcommand args) "policy" && String.eqb (Args.policy_cmd args) "list"
  then policy_list_command args
  else if String.eqb (Args.subcommand args) "role" && String.eqb (Args.role_cmd args) "create"
  then _do_identity_role_create args
  else if String.eqb (Args.subcommand args) "role" && String.eqb (Args.role_cmd args) "list"
  then role_list_command args
  else fail (Exn (AssertionError
         (double_quote ++ Args.subcommand args ++ double_quote
          ++ " is not a valid subcommand of " ++ double_quote ++ "identity" ++ double_quote))).

End Commands.

(** The body of the loop of [_create_policy_txn] once the rule is cut
    into tokens. *)
Definition rule_step_on (entries : list Policy.Entry) (tokens : list string)
  : result (list Policy.Entry) :=
  r0 ← index tokens 0;
  if String.eqb r0 "PERMIT_KEY" then
    k ← index tokens 1;
    Ok (entries ++ [Policy.mkEntry Policy.PERMIT_KEY k])%list
  else if String.eqb r0 "DENY_KEY" then
    k ← index tokens 1;
    Ok (entries ++ [Policy.mkEntry Policy.DENY_KEY k])%list
  else Ok entries.

(** [d.get(k)] on a dictionary. *)
Fixpoint dict_get (k : string) (d : dict) : option string :=
  match d with
  | [] => None
  | (k', v) :: d' => if String.eqb k' k then Some v else dict_get k d'
  end.

(** The items of a json or yaml output. *)
Definition doc_items (o : Output) : dict :=
  match o with
  | JsonDoc _ _ items | YamlDoc _ _ items => items
  | Printed _ | CsvRows _ => []
  end.

(** The values of a list that carry a given key, in the order of the list. *)
Definition with_key {A : Type} (key : A -> string) (k : string) (l : list A) : list A :=
  List.filter (fun a => String.eqb (key a) k) l.

(** [h'] is [h] after one transaction and the batch holding it were
    made and signed with the key [signing_key]: the batch lists the
    signature of the transaction, each signature is over the header it
    goes with, the clock was read once and the two headers, and nothing
    else, were signed, the transaction first. *)
Definition signed_batch `{Collab} (pubkey signing_key : string)
    (txn : Transaction.t) (batch : Batch.t) (h h' : Host) : Prop :=
  Batch.transactions batch = [txn] /\
  Batch.header batch =
    batch_header_bytes (BatchHeader.mk pubkey [Transaction.header_signature txn]) /\
  Transaction.header_signature txn = signing_sign (Transaction.header txn) signing_key /\
  Batch.header_signature batch = signing_sign (Batch.header batch) signing_key /\
  world h' =
    mkWorld (S (ticks (world h)))
            (signed (world h) ++ [Transaction.header txn; Batch.header batch])%list.

(** The command left the files, the batches sent and the output as
    they were. *)
Definition nothing_out (h h' : Host) : Prop :=
  written h' = written h /\ sent h' = sent h /\ printed h' = printed h.

(** The two create commands. *)
Inductive create_kind : Set := CreatePolicy | CreateRole.

Definition create_command `{Collab} `{Platform} (kind : create_kind) : Args.t -> C unit :=
  match kind with
  | CreatePolicy => _do_identity_policy_create
  | CreateRole => _do_identity_role_create
  end.

(** The rules do not stop the command: a role has none. *)
Definition rules_pass (kind : create_kind) (args : Args.t) : bool :=
  match kind with
  | CreatePolicy => keys_present (Args.rule args)
  | CreateRole => true
  end.

(** All of a string is white space. *)
Definition all_space (s : string) : bool :=
  forallb is_space (list_ascii_of_string s).

(** A stand-in for the platform: one key file, padded with white
    space, is readable; every file can be written and every batch list
    sent; the ledger holds the blobs of [example_state]. *)
Definition stand_in_platform : Platform := {|
  home_dir := "/home/alice";
  user_name := "alice";
  read_text filename :=
    if String.eqb filename "/home/alice/.sawtooth/keys/alice.priv"
    then inl ("  5J7bEeWs14sKkz7yVHfVc2FXKfBe6Hb5oNZxxTKqKZCgjbDTuUj" ++ nl)
    else inr ("[Errno 2] No such file or directory: " ++ filename);
  generate_pubkey signing_key := Sha256.hexdigest (Py.encode signing_key);
  batch_list_bytes batch_list :=
    concat (map (fun b => Batch.header b ++ Py.encode (Batch.header_signature b))%list
                (BatchList.batches batch_list));
  write_bytes path data := None;
  send_batches url batch_list := None;
  list_state url subtree := inr example_state
|}.

(** Stand-ins for the csv writer: one that takes every row, one that
    refuses the row of the name 'mid'. *)
Definition stand_in_console : Console := {| csv_accepts row := true |}.



(** Arguments of a role creation that names an output file, and of one
    that names neither file nor URL. *)
Definition example_args : Args.t :=
  Args.mk "role" "" "create" None (Some "role.batch") (Some "http://localhost:8080")
          "transactor" [] "policy_1" "default".

Definition no_target_args : Args.t :=
  Args.mk "role" "" "create" None None None "transactor" [] "policy_1" "default".

Definition fresh_host : Host := mkHost (mkWorld 0 []) [] [] [].

(** Arguments of a role creation that names a URL only, of one whose
    key file is missing, of a policy creation with a keyword that has
    no key, of a policy listing, and of a subcommand that is not known. *)
Definition url_args : Args.t :=
  Args.mk "role" "" "create" None None (Some "http://localhost:8080")
          "transactor" [] "policy_1" "default".

Definition missing_key_args : Args.t :=
  Args.mk "role" "" "create" (Some "missing.priv") None (Some "http://localhost:8080")
          "transactor" [] "policy_1" "default".

Definition bad_rule_args : Args.t :=
  Args.mk "policy" "create" "" None (Some "policy.batch") None
          "policy_1" ["PERMIT_KEY 03cd"; "DENY_KEY"] "" "default".


Definition unknown_args : Args.t :=
  Args.mk "policy" "delete" "" None None None "policy_1" [] "" "default".

Definition example_key : string := "5J7bEeWs14sKkz7yVHfVc2FXKfBe6Hb5oNZxxTKqKZCgjbDTuUj".

(* ------------------------------------------------------------------ *)
(** ** Facts about the string primitives                               *)
(* ------------------------------------------------------------------ *)

(** Split a goal into its conjuncts, and nothing further. *)
Ltac split_ands := repeat match goal with |- _ /\ _ => split end.

Section StringFacts.

Lemma app_cons (c : ascii) (s1 s2 : string) : String c s1 ++ s2 = String c (s1 ++ s2).
Proof. reflexivity. Qed.

Lemma app_empty_l (s : string) : "" ++ s = s.
Proof. reflexivity. Qed.

Lemma length_app (s1 s2 : string) :
  String.length (s1 ++ s2) = (String.length s1 + String.length s2)%nat.
Proof.
  induction s1 as [|c s1 IH]; [reflexivity|].
  rewrite app_cons. simpl. now rewrite IH.
Qed.

Lemma app_assoc_str (s1 s2 s3 : string) : (s1 ++ s2) ++ s3 = s1 ++ (s2 ++ s3).
Proof.
  induction s1 as [|c s1 IH]; [reflexivity|].
  rewrite !app_cons. now rewrite IH.
Qed.

Lemma app_empty_r (s : string) : s ++ "" = s.
Proof.
  induction s as [|c s IH]; [reflexivity|].
  rewrite app_cons. now rewrite IH.
Qed.

Lemma upto_length (n : nat) (s : string) :
  String.length (Py.upto n s) = Nat.min n (String.length s).
Proof.
  unfold Py.upto. revert s.
  induction n as [|n IH]; intros [|c s]; simpl; try reflexivity.
  now rewrite IH.
Qed.

Lemma upto_app (s1 s2 : string) : Py.upto (String.length s1) (s1 ++ s2) = s1.
Proof.
  unfold Py.upto. induction s1 as [|c s1 IH].
  - rewrite app_empty_l. now destruct s2.
  - rewrite app_cons. simpl. now rewrite IH.
Qed.

Lemma upto_all (s : string) : Py.upto (String.length s) s = s.
Proof. rewrite <- (app_empty_r s) at 2. apply upto_app. Qed.

(** Skipping exactly the first operand of an append. *)
Lemma substring_skip (s1 s2 : string) (m : nat) :
  substring (String.length s1) m (s1 ++ s2) = substring 0 m s2.
Proof.
  induction s1 as [|c s1 IH]; [reflexivity|].
  rewrite app_cons. simpl. exact IH.
Qed.

Lemma substring_at (pre mid post : string) :
  substring (String.length pre) (String.length mid) (pre ++ mid ++ post) = mid.
Proof. rewrite substring_skip. apply upto_app. Qed.

End StringFacts.

Section HashFacts.

Lemma is_hex_cons (c : ascii) (s : string) :
  is_hex (String c s) = is_hex_digit c && is_hex s.
Proof. reflexivity. Qed.

Lemma is_hex_app (s1 s2 : string) : is_hex (s1 ++ s2) = is_hex s1 && is_hex s2.
Proof.
  induction s1 as [|c s1 IH]; [reflexivity|].
  rewrite app_cons. simpl. rewrite IH. now rewrite andb_assoc.
Qed.

Lemma is_hex_upto (n : nat) (s : string) : is_hex s = true -> is_hex (Py.upto n s) = true.
Proof.
  unfold Py.upto. revert s.
  induction n as [|n IH]; intros [|c s]; simpl; try reflexivity.
  intros Hs. apply andb_true_iff in Hs as [Hc Hs].
  rewrite Hc. simpl. now apply IH.
Qed.

Lemma hex_digit_is_hex (x : Z) : is_hex_digit (Sha256.hex_digit x) = true.
Proof.
  unfold Sha256.hex_digit.
  assert (Hd : (0 <= Z.land x 15 < 16)%Z).
  { change 15%Z with (Z.ones 4). rewrite Z.land_ones by lia.
    apply Z.mod_pos_bound. lia. }
  set (d := Z.land x 15) in *.
  assert (Hcases : In d (map Z.of_nat (seq 0 16))).
  { apply in_map_iff. exists (Z.to_nat d). split; [lia|].
    apply in_seq. lia. }
  simpl in Hcases.
  repeat (destruct Hcases as [<- | Hcases]; [reflexivity|]).
  destruct Hcases.
Qed.

Lemma hex_word_length (x : Z) : String.length (Sha256.hex_word x) = 8%nat.
Proof. reflexivity. Qed.

Lemma hex_word_is_hex (x : Z) : is_hex (Sha256.hex_word x) = true.
Proof.
  unfold Sha256.hex_word.
  repeat (rewrite is_hex_cons, hex_digit_is_hex, andb_true_l).
  reflexivity.
Qed.

Lemma hexdigest_length (data : bytes) : String.length (Sha256.hexdigest data) = 64%nat.
Proof.
  unfold Sha256.hexdigest, Sha256.hex_regs.
  rewrite !length_app, !hex_word_length. reflexivity.
Qed.

Lemma hexdigest_is_hex (data : bytes) : is_hex (Sha256.hexdigest data) = true.
Proof.
  unfold Sha256.hexdigest, Sha256.hex_regs.
  rewrite !is_hex_app, !hex_word_is_hex. reflexivity.
Qed.

(** The model against digests of [hashlib]: the empty message, one
    block, two blocks, a padding that spills into a second block, and a
    code point above 127 (two bytes once encoded). *)
Lemma to_hash_vectors :
  _to_hash "" = "e3b0c44298fc1c149afbf4c8996fb92427ae41e4649b934ca495991b7852b855" /\
  _to_hash "abc" = "ba7816bf8f01cfea414140de5dae2223b00361a396177a9cb410ff61f20015ad" /\
  _to_hash "abcdbcdecdefdefgefghfghighijhijkijkljklmklmnlmnomnopnopq" =
    "248d6a61d20638b8e5c026930c3e6039a33ce45964ff2167f6ecedd419db06c1" /\
  _to_hash (string_of_list_ascii (repeat "a"%char 119)) =
    "31eba51c313a5c08226adf18d4a359cfdfd8d2e816b13f4af952f7ea6584dcfb" /\
  _to_hash (String (ascii_of_nat 233) "") =
    "4a99557e4033c3539de2eb65472017cad5f9557f7a0625a09f1c3f6e2ba69c4c".
Proof. split_ands; vm_compute; reflexivity. Qed.

Lemma to_hash_length (value : string) : String.length (_to_hash value) = 64%nat.
Proof. apply hexdigest_length. Qed.

Lemma to_hash_is_hex (value : string) : is_hex (_to_hash value) = true.
Proof. apply hexdigest_is_hex. Qed.

Lemma short_hash_length (n : nat) (value : string) :
  (n <= 64)%nat -> String.length (Py.upto n (_to_hash value)) = n.
Proof. intros Hn. rewrite upto_length, to_hash_length. lia. Qed.

Lemma empty_part_length : String.length _EMPTY_PART = 16%nat.
Proof. apply short_hash_length. lia. Qed.

End HashFacts.

(* ------------------------------------------------------------------ *)
(** ** Facts about [split] and the layout of role addresses            *)
(* ------------------------------------------------------------------ *)

Section SplitFacts.
Variable sep : ascii.

Lemma split_cons (budget : option nat) (s : string) :
  exists p ps, Py.split sep budget s = p :: ps.
Proof.
  destruct s as [|c s]; simpl; [eauto|].
  destruct (Py.may_split budget && Ascii.eqb c sep); [eauto|].
  destruct (Py.split sep budget s); eauto.
Qed.



Lemma split_length (budget : option nat) (s : string) :
  length (Py.split sep budget s) =
    match budget with
    | None => S (count_char sep s)
    | Some n => S (Nat.min n (count_char sep s))
    end.
Proof.
  revert budget. induction s as [|c s IH]; intros budget.
  - destruct budget as [n|]; simpl; [|reflexivity]. now rewrite Nat.min_0_r.
  - simpl. destruct (Ascii.eqb c sep) eqn:Hc.
    + destruct budget as [[|n]|]; simpl.
      * specialize (IH (Some 0%nat)).
        destruct (split_cons (Some 0%nat) s) as (p & ps & Hp).
        rewrite Hp in *. simpl in *. exact IH.
      * rewrite IH. reflexivity.
      * rewrite IH. reflexivity.
    + rewrite andb_false_r. specialize (IH budget).
      destruct (split_cons budget s) as (p & ps & Hp).
      rewrite Hp in *. simpl in *. exact IH.
Qed.


(** A trailing separator within budget adds one empty part. *)
Lemma split_trailing (n : nat) (s : string) :
  (count_char sep s < n)%nat ->
  Py.split sep (Some n) (s ++ String sep "") = (Py.split sep (Some n) s ++ [""])%list.
Proof.
  revert n. induction s as [|c s IH]; intros n Hn.
  - destruct n; [lia|]. rewrite app_empty_l. simpl.
    now rewrite Ascii.eqb_refl.
  - rewrite app_cons. simpl in *. destruct (Ascii.eqb c sep) eqn:Hc.
    + destruct n as [|n]; [lia|]. simpl. rewrite IH by lia. reflexivity.
    + rewrite andb_false_r. rewrite IH by lia.
      destruct (split_cons (Some n) s) as (q & qs & Hq). rewrite Hq.
      reflexivity.
Qed.

End SplitFacts.

#[global] Arguments _to_hash : simpl never.
#[global] Arguments Py.upto : simpl never.
#[global] Arguments Sha256.hexdigest : simpl never.

Section AddressFacts.

Lemma join_empty (x : string) (l : list string) :
  Py.join "" (x :: l) = x ++ Py.join "" l.
Proof. destruct l; [simpl; now rewrite app_empty_r | reflexivity]. Qed.

Lemma key_parts_length (name : string) :
  length (key_parts name) = S (Nat.min 3 (count_char "." name)).
Proof. apply (split_length "." (Some 3%nat)). Qed.

Lemma short_hash_length' (i : nat) (part : string) :
  String.length (short_hash i part) = slot_size i.
Proof. apply short_hash_length. destruct i; vm_compute; lia. Qed.

Lemma short_hash_is_hex (i : nat) (part : string) : is_hex (short_hash i part) = true.
Proof. apply is_hex_upto, to_hash_is_hex. Qed.

(** The slots of an address laid out as prefix and four fields. *)
Lemma segments_of_fields (s0 s1 s2 s3 : string) :
  String.length s0 = 14%nat -> String.length s1 = 16%nat ->
  String.length s2 = 16%nat -> String.length s3 = 16%nat ->
  let address := "00001d01" ++ s0 ++ s1 ++ s2 ++ s3 in
  segment 0 address = s0 /\ segment 1 address = s1 /\
  segment 2 address = s2 /\ segment 3 address = s3.
Proof.
  intros H0 H1 H2 H3 address. unfold segment, address.
  repeat split.
  - rewrite <- H0. apply (substring_at "00001d01").
  - rewrite <- (app_assoc_str "00001d01").
    replace (22 + 16 * 0)%nat with (String.length ("00001d01" ++ s0))
      by (rewrite length_app, H0; reflexivity).
    rewrite <- H1. apply substring_at.
  - rewrite <- (app_assoc_str "00001d01"), <- (app_assoc_str _ s1).
    replace (22 + 16 * 1)%nat with (String.length (("00001d01" ++ s0) ++ s1))
      by (rewrite !length_app, H0, H1; reflexivity).
    rewrite <- H2. apply substring_at.
  - rewrite <- (app_assoc_str "00001d01"), <- (app_assoc_str _ s1),
      <- (app_assoc_str _ s2).
    replace (22 + 16 * 2)%nat with (String.length ((("00001d01" ++ s0) ++ s1) ++ s2))
      by (rewrite !length_app, H0, H1, H2; reflexivity).
    rewrite substring_skip, <- H3. apply upto_all.
Qed.

Lemma role_address_fields (name : string) :
  _role_to_address name =
    "00001d01" ++ field (key_parts name) 0 ++ field (key_parts name) 1
               ++ field (key_parts name) 2 ++ field (key_parts name) 3.
Proof.
  pose proof (key_parts_length name) as Hlen.
  unfold _role_to_address.
  change (Py.split "." (Some (_MAX_KEY_PARTS - 1)%nat) name) with (key_parts name).
  destruct (key_parts name) as [|p0 [|p1 [|p2 [|p3 [|p4 rest]]]]];
    cbn [length] in Hlen; try lia;
    cbn [length map app repeat Nat.sub _MAX_KEY_PARTS];
    rewrite !join_empty; reflexivity.
Qed.

Lemma field_length (parts : list string) (i : nat) :
  String.length (field parts i) = slot_size i \/
  (parts !! i = None /\ String.length (field parts i) = 16%nat).
Proof.
  unfold field. destruct (parts !! i).
  - left. apply short_hash_length'.
  - right. split; [reflexivity | apply empty_part_length].
Qed.

Lemma field_length_0 (name : string) :
  String.length (field (key_parts name) 0) = 14%nat.
Proof.
  destruct (split_cons "." (Some 3%nat) name) as (p & ps & Hp).
  unfold key_parts, field. rewrite Hp. apply short_hash_length'.
Qed.

Lemma field_length_S (parts : list string) (i : nat) :
  String.length (field parts (S i)) = 16%nat.
Proof. destruct (field_length parts (S i)) as [H | [_ H]]; exact H. Qed.

Lemma field_is_hex (parts : list string) (i : nat) : is_hex (field parts i) = true.
Proof.
  unfold field. destruct (parts !! i); [apply short_hash_is_hex|].
  apply (short_hash_is_hex 1 "").
Qed.

Lemma role_address_segment (name : string) (j : nat) :
  (j < 4)%nat -> segment j (_role_to_address name) = field (key_parts name) j.
Proof.
  intros Hj. rewrite role_address_fields.
  destruct (segments_of_fields
              (field (key_parts name) 0) (field (key_parts name) 1)
              (field (key_parts name) 2) (field (key_parts name) 3))
    as (E0 & E1 & E2 & E3);
    auto using field_length_0, field_length_S.
  destruct j as [|[|[|[|j]]]]; try lia; assumption.
Qed.

Lemma role_address_length (name : string) :
  String.length (_role_to_address name) = 70%nat.
Proof.
  rewrite role_address_fields, !length_app, field_length_0, !field_length_S.
  reflexivity.
Qed.

Lemma role_address_is_hex (name : string) : is_hex (_role_to_address name) = true.
Proof.
  rewrite role_address_fields, !is_hex_app, !field_is_hex. reflexivity.
Qed.

Lemma role_address_prefix (name : string) :
  Py.upto 8 (_role_to_address name) = "00001d01".
Proof. rewrite role_address_fields. apply (upto_app "00001d01"). Qed.

End AddressFacts.

(* ------------------------------------------------------------------ *)
(** ** The address codec                                               *)
(* ------------------------------------------------------------------ *)

Section AddressCodec.





(** C2.  The policy address of a name (the empty name included) is
    '00001d', '00' and the first 62 hex characters of the SHA-256 hex
    digest of the encoded name, hashed once and whole: 70 lower-case
    hex characters that start with '00001d00', the same for the same
    name.  A dot in the name is hashed like any other character, so
    'a.b' and 'a' get different addresses; the addresses of 'a', 'a.b'
    and 'org.marketing' are as any SHA-256 implementation gives them. *)
Theorem policy_address_form (n : string) :
  _policy_to_address n = "00001d" ++ "00" ++ Py.upto 62 (_to_hash n) /\
  _to_hash n = Sha256.hexdigest (Py.encode n) /\
  _policy_to_address n =
    "00001d" ++ "00" ++ Py.upto 62 (Sha256.hexdigest (Py.encode n)) /\
  String.length (_policy_to_address n) = 70%nat /\
  is_hex (_policy_to_address n) = true /\
  Py.upto 8 (_policy_to_address n) = "00001d00" /\
  (forall n', n' = n -> _policy_to_address n' = _policy_to_address n) /\
  _policy_to_address "org.marketing" =
    "00001d00" ++ Py.upto 62 (Sha256.hexdigest (Py.encode "org.marketing")) /\
  _policy_to_address "org.marketing" =
    "00001d0011e04a7e596fdd4c75a5006856a8a4f4840b18bf7e1419b0194538ab9f58c7" /\
  _policy_to_address "a" =
    "00001d00ca978112ca1bbdcafac231b39a23dc4da786eff8147c4e72b9807785afee48" /\
  _policy_to_address "a.b" =
    "00001d002e7336dc8eba87ef472df568c35482abf2575dc3e5eac0c5c62b8ffaeac2c9" /\
  _policy_to_address "a.b" <> _policy_to_address "a".
Proof.
  split_ands.
  - reflexivity.
  - reflexivity.
  - reflexivity.
  - unfold _policy_to_address.
    change (IDENTITY_NAMESPACE ++ _POLICY_PREFIX ++ Py.upto 62 (_to_hash n))
      with ("00001d00" ++ Py.upto 62 (_to_hash n)).
    rewrite length_app, short_hash_length by lia. reflexivity.
  - unfold _policy_to_address.
    change (IDENTITY_NAMESPACE ++ _POLICY_PREFIX ++ Py.upto 62 (_to_hash n))
      with ("00001d00" ++ Py.upto 62 (_to_hash n)).
    rewrite is_hex_app, is_hex_upto by apply to_hash_is_hex. reflexivity.
  - apply (upto_app "00001d00").
  - now intros n' ->.
  - reflexivity.
  - vm_compute. reflexivity.
  - vm_compute. reflexivity.
  - vm_compute. reflexivity.
  - vm_compute. discriminate.
Qed.

Lemma policy_address_form_witness :
  _policy_to_address "policy_1" =
    "00001d00fc4198dbed83ec6045bcb0ed060e151cc93da16f94419e238d5179c6a17bf6" /\
  _policy_to_address "policy_1" = _policy_to_address "policy_1" /\
  String.length (_policy_to_address "policy_1") = 70%nat.
Proof.
  destruct (policy_address_form "policy_1")
    as (_ & _ & Hform & Hlen & _ & _ & Hsame & _).
  split_ands.
  - rewrite Hform. vm_compute. reflexivity.
  - apply Hsame. reflexivity.
  - exact Hlen.
Defined.

(** C6, as the specification states it, fails: the two one-part
    names below differ in their only component and get the same
    slot 0, indeed the same address. *)
Lemma role_address_segment_collision :
  differ_only_at 0 "55f4e7e78d38b7" "46591e61566b98" /\
  segment 0 (_role_to_address "55f4e7e78d38b7") =
    segment 0 (_role_to_address "46591e61566b98") /\
  _role_to_address "55f4e7e78d38b7" = _role_to_address "46591e61566b98" /\
  ~ one_component_one_segment.
Proof.
  assert (Hd : differ_only_at 0 "55f4e7e78d38b7" "46591e61566b98").
  { unfold differ_only_at. split_ands.
    - reflexivity.
    - simpl. lia.
    - simpl. congruence.
    - intros [|j] Hj; [congruence | reflexivity]. }
  assert (Hs : segment 0 (_role_to_address "55f4e7e78d38b7") =
               segment 0 (_role_to_address "46591e61566b98"))
    by (vm_compute; reflexivity).
  split_ands; try apply Hd; try exact Hs.
  - vm_compute; reflexivity.
  - intros Hclaim.
    destruct (Hclaim "55f4e7e78d38b7" "46591e61566b98" 0%nat) as [Hne _];
      [discriminate | discriminate | exact Hd |].
    apply Hne, Hs.
Qed.

(** C6, amended.  Every role address is 70 lower-case hex characters
    starting with '00001d01', and its slot [j] is the truncated hash
    of part [j] of the name.  For two names that differ in exactly one
    component, every other slot agrees, and the slot of that component
    differs whenever the truncated hashes of the two components do. *)
Theorem role_address_segments (n1 n2 : string) (i : nat) (p1 p2 : string) :
  (String.length (_role_to_address n1) = 70%nat /\
   is_hex (_role_to_address n1) = true /\
   Py.upto 8 (_role_to_address n1) = "00001d01" /\
   forall j p, key_parts n1 !! j = Some p ->
     segment j (_role_to_address n1) = short_hash j p) /\
  (differ_only_at i n1 n2 ->
   key_parts n1 !! i = Some p1 ->
   key_parts n2 !! i = Some p2 ->
   (forall j, (j < 4)%nat -> j <> i ->
      segment j (_role_to_address n1) = segment j (_role_to_address n2)) /\
   (short_hash i p1 <> short_hash i p2 ->
      segment i (_role_to_address n1) <> segment i (_role_to_address n2))).
Proof.
  assert (Hseg : forall n j p, key_parts n !! j = Some p ->
                   segment j (_role_to_address n) = short_hash j p).
  { intros n j p Hp.
    assert (Hj : (j < 4)%nat).
    { apply lookup_lt_Some in Hp. pose proof (key_parts_length n). lia. }
    rewrite role_address_segment by exact Hj. unfold field. now rewrite Hp. }
  split; [split_ands|].
  - apply role_address_length.
  - apply role_address_is_hex.
  - apply role_address_prefix.
  - apply Hseg.
  - intros (Hlen & Hi & Hne & Hsame) H1 H2. split.
    + intros j Hj Hji. rewrite !role_address_segment by exact Hj.
      unfold field. now rewrite (Hsame j Hji).
    + intros Hh. now rewrite (Hseg n1 i p1 H1), (Hseg n2 i p2 H2).
Qed.

Lemma role_address_segments_witness :
  segment 1 (_role_to_address "a.b") <> segment 1 (_role_to_address "a.c") /\
  segment 0 (_role_to_address "a.b") = segment 0 (_role_to_address "a.c").
Proof.
  assert (Hd : differ_only_at 1 "a.b" "a.c").
  { unfold differ_only_at. split_ands.
    - reflexivity.
    - simpl. lia.
    - simpl. congruence.
    - intros [|[|j]] Hj; [reflexivity | congruence | reflexivity]. }
  destruct (role_address_segments "a.b" "a.c" 1 "b" "c") as [_ Hpair].
  destruct (Hpair Hd eq_refl eq_refl) as [Hothers Hthis].
  split.
  - apply Hthis. vm_compute. discriminate.
  - apply Hothers; lia.
Defined.

(** C8.  A trailing dot on a name with at most two dots is not seen
    in the address: the added part is empty, its truncated hash is the
    padding constant, so two different names share one address. *)
Theorem role_address_trailing_dot (name : string) :
  (count_char "." name <= 2)%nat ->
  _role_to_address (name ++ ".") = _role_to_address name /\
  name ++ "." <> name /\
  Py.upto _ADDRESS_PART_SIZE (_to_hash "") = _EMPTY_PART.
Proof.
  intros Hc. split_ands.
  - rewrite !role_address_fields.
    assert (Hk : key_parts (name ++ ".") = (key_parts name ++ [""])%list)
      by (apply (split_trailing "." 3 name); lia).
    rewrite Hk.
    pose proof (key_parts_length name) as Hlen.
    destruct (key_parts name) as [|p0 [|p1 [|p2 [|p3 rest]]]];
      cbn [length] in Hlen; try lia; reflexivity.
  - intros Heq. apply (f_equal String.length) in Heq.
    rewrite length_app in Heq. simpl in Heq. lia.
  - reflexivity.
Qed.

Lemma role_address_trailing_dot_witness :
  _role_to_address "org.dept." = _role_to_address "org.dept".
Proof.
  apply (role_address_trailing_dot "org.dept"). simpl. lia.
Defined.

End AddressCodec.

(* ------------------------------------------------------------------ *)
(** ** Policy rules                                                    *)
(* ------------------------------------------------------------------ *)

Section RuleFacts.

Lemma omap_cons {A B : Type} (f : A -> option B) (x : A) (l : list A) :
  omap f (x :: l) = match f x with Some y => y :: omap f l | None => omap f l end.
Proof. reflexivity. Qed.

Lemma rule_step_skip (entries : list Policy.Entry) (rule : string) :
  is_key_rule rule = false -> rule_step entries rule = Ok entries.
Proof.
  unfold is_key_rule, first_token, rule_step.
  destruct (split_cons " " None rule) as (t & ts & Ht). rewrite Ht. simpl.
  intros Hk. apply orb_false_iff in Hk as [-> ->]. reflexivity.
Qed.

Lemma rule_step_key (entries : list Policy.Entry) (rule : string) :
  is_key_rule rule = true ->
  rule_step entries rule =
    (k ← index (Py.split " " None rule) 1;
     Ok (entries ++ [Policy.mkEntry (keyword_type (first_token rule)) k])%list).
Proof.
  unfold is_key_rule, first_token, rule_step, keyword_type.
  destruct (split_cons " " None rule) as (t & ts & Ht). rewrite Ht. simpl.
  destruct (String.eqb t "PERMIT_KEY") eqn:Hp; [reflexivity|].
  simpl. intros ->. reflexivity.
Qed.

Lemma rule_step_entry (entries : list Policy.Entry) (rule : string) :
  rule_step entries rule =
    if implb (is_key_rule rule) (has_key rule)
    then Ok (entries ++ option_list (rule_entry rule))%list
    else Raise IndexError.
Proof.
  unfold is_key_rule, has_key, first_token, rule_step, rule_entry.
  destruct (split_cons " " None rule) as (t & ts & Ht). rewrite Ht. simpl.
  destruct (String.eqb t "PERMIT_KEY"), (String.eqb t "DENY_KEY"),
    ts as [|k ts]; simpl; rewrite ?app_nil_r; reflexivity.
Qed.

Lemma for_each_rules (rules : list string) (entries : list Policy.Entry) :
  for_each rule_step rules entries =
    if keys_present rules
    then Ok (entries ++ omap rule_entry rules)%list
    else Raise IndexError.
Proof.
  revert entries. induction rules as [|rule rules IH]; intros entries.
  - simpl. now rewrite app_nil_r.
  - cbn [for_each keys_present forallb]. rewrite rule_step_entry.
    fold (keys_present rules).
    destruct (implb (is_key_rule rule) (has_key rule)); [|reflexivity].
    cbn [mbind result_bind andb]. rewrite IH.
    destruct (keys_present rules); [|reflexivity].
    f_equal. rewrite <- app_assoc. f_equal.
    rewrite omap_cons. now destruct (rule_entry rule).
Qed.

Lemma policy_entries_char (rules : list string) :
  policy_entries rules =
    if keys_present rules then Ok (omap rule_entry rules) else Raise IndexError.
Proof. apply for_each_rules. Qed.

Lemma rule_entry_non_key (rule : string) :
  is_key_rule rule = false -> rule_entry rule = None.
Proof.
  unfold is_key_rule, first_token, rule_entry.
  destruct (split_cons " " None rule) as (t & ts & Ht). rewrite Ht. simpl.
  intros Hk. apply orb_false_iff in Hk as [-> ->]. now destruct ts.
Qed.

Lemma rule_entry_key (rule : string) :
  is_key_rule rule = true -> has_key rule = true -> is_Some (rule_entry rule).
Proof.
  unfold is_key_rule, has_key, first_token, rule_entry.
  destruct (split_cons " " None rule) as (t & ts & Ht). rewrite Ht. simpl.
  destruct ts as [|k ts]; [discriminate|]. intros Hk _.
  destruct (String.eqb t "PERMIT_KEY"); [eauto|].
  simpl in Hk. rewrite Hk. eauto.
Qed.

Lemma omap_key_rules (rules : list string) :
  omap rule_entry (List.filter is_key_rule rules) = omap rule_entry rules.
Proof.
  induction rules as [|rule rules IH]; [reflexivity|].
  cbn [List.filter]. destruct (is_key_rule rule) eqn:Hk.
  - rewrite !omap_cons. now rewrite IH.
  - rewrite omap_cons. now rewrite (rule_entry_non_key rule Hk), IH.
Qed.

Lemma keys_present_key_rules (rules : list string) :
  keys_present (List.filter is_key_rule rules) = keys_present rules.
Proof.
  induction rules as [|rule rules IH]; [reflexivity|].
  simpl. destruct (is_key_rule rule) eqn:Hk; simpl; rewrite ?Hk; simpl;
    fold (keys_present rules);
    fold (keys_present (List.filter is_key_rule rules)); now rewrite IH.
Qed.

Lemma entries_of_key_rules (rules : list string) :
  keys_present rules = true ->
  map Some (omap rule_entry rules) = map rule_entry (List.filter is_key_rule rules).
Proof.
  induction rules as [|rule rules IH]; [reflexivity|].
  cbn [keys_present forallb]. fold (keys_present rules).
  intros Hk. apply andb_true_iff in Hk as [Hr Hk].
  cbn [List.filter]. rewrite omap_cons.
  destruct (is_key_rule rule) eqn:Hkey.
  - simpl in Hr. destruct (rule_entry_key rule Hkey Hr) as [e He].
    rewrite He. cbn [map]. rewrite He. f_equal. now apply IH.
  - rewrite (rule_entry_non_key rule Hkey). now apply IH.
Qed.

Lemma policy_entries_no_key_rule (rules : list string) :
  Forall (fun rule => is_key_rule rule = false) rules -> policy_entries rules = Ok [].
Proof.
  intros Hall. rewrite policy_entries_char.
  induction Hall as [|rule rules Hr Hall IH]; [reflexivity|].
  cbn [keys_present forallb]. fold (keys_present rules).
  rewrite Hr, omap_cons, (rule_entry_non_key _ Hr). exact IH.
Qed.

End RuleFacts.

(* ------------------------------------------------------------------ *)
(** ** Transactions and batches                                        *)
(* ------------------------------------------------------------------ *)

Section BuilderFacts.
Context `{Collab}.

Lemma create_policy_txn_run (pubkey signing_key policy_name : string)
    (rules : list string) (w : World) :
  _create_policy_txn pubkey signing_key policy_name rules w =
    match policy_entries rules with
    | Raise e => (Raise e, w)
    | Ok entries =>
        let payload :=
          IdentityPayload.mk IdentityPayload.POLICY
            (policy_bytes (Policy.mk policy_name entries)) in
        let header :=
          policy_txn_header pubkey policy_name payload
            (Py.encode (time_hex (ticks w))) in
        let header_bytes := txn_header_bytes header in
        (Ok (Transaction.mk header_bytes (payload_bytes payload)
               (signing_sign header_bytes signing_key)),
         mkWorld (S (ticks w)) (signed w ++ [header_bytes]))
    end.
Proof.
  unfold _create_policy_txn, mbind, M_bind, lift.
  destruct (policy_entries rules); reflexivity.
Qed.

Lemma create_role_txn_run (pubkey signing_key role_name policy_name : string)
    (w : World) :
  _create_role_txn pubkey signing_key role_name policy_name w =
    let payload :=
      IdentityPayload.mk IdentityPayload.ROLE
        (role_bytes (Role.mk role_name policy_name)) in
    let header :=
      role_txn_header pubkey role_name policy_name payload
        (Py.encode (time_hex (ticks w))) in
    let header_bytes := txn_header_bytes header in
    (Ok (Transaction.mk header_bytes (payload_bytes payload)
           (signing_sign header_bytes signing_key)),
     mkWorld (S (ticks w)) (signed w ++ [header_bytes])).
Proof. reflexivity. Qed.

(** C3.  The header of a transaction built for a policy or for a role
    is the serialization of a header with family 'sawtooth_identity',
    version '1.0', no dependencies, the same key as signer and as
    batcher, and the address sets of its kind: the policy address as
    only input and only output for a policy; the referenced policy's
    address then the role address as inputs and the role address as
    only output for a role.  The role builder always returns. *)
Theorem txn_header_fields (pubkey signing_key : string) (w : World) :
  (forall name rules txn w',
     _create_policy_txn pubkey signing_key name rules w = (Ok txn, w') ->
     exists h,
       Transaction.header txn = txn_header_bytes h /\
       identity_header h pubkey [_policy_to_address name] [_policy_to_address name]) /\
  (forall name policy_name,
     exists txn w' h,
       _create_role_txn pubkey signing_key name policy_name w = (Ok txn, w') /\
       Transaction.header txn = txn_header_bytes h /\
       identity_header h pubkey
         [_policy_to_address policy_name; _role_to_address name]
         [_role_to_address name]).
Proof.
  split.
  - intros name rules txn w' Hrun. rewrite create_policy_txn_run in Hrun.
    destruct (policy_entries rules) as [entries|e]; [|discriminate].
    injection Hrun as <- <-. eexists. split; [reflexivity|].
    unfold identity_header, policy_txn_header. simpl. tauto.
  - intros name policy_name. rewrite create_role_txn_run.
    do 3 eexists. split; [reflexivity|]. split; [reflexivity|].
    unfold identity_header, role_txn_header. simpl. tauto.
Qed.

(** C4.  The batch built from a list of transactions holds that list
    unchanged, and the header it serializes lists the header
    signatures of the transactions in the same order. *)
Theorem batch_transaction_ids (pubkey signing_key : string)
    (transactions : list Transaction.t) (w : World) :
  exists batch w' bh,
    _create_batch pubkey signing_key transactions w = (Ok batch, w') /\
    Batch.transactions batch = transactions /\
    Batch.header batch = batch_header_bytes bh /\
    BatchHeader.signer_pubkey bh = pubkey /\
    BatchHeader.transaction_ids bh = map Transaction.header_signature transactions /\
    length (BatchHeader.transaction_ids bh) = length transactions /\
    (forall i, BatchHeader.transaction_ids bh !! i =
                 Transaction.header_signature <$> transactions !! i) /\
    Batch.header_signature batch = signing_sign (Batch.header batch) signing_key.
Proof.
  do 3 eexists. split; [reflexivity|]. simpl. split_ands; try reflexivity.
  - apply length_map.
  - intros i. apply list_lookup_fmap.
Qed.

(** C5.  In a transaction built for a policy or for a role, the
    [payload_sha512] of the header is the hex sha512 digest of the
    payload bytes the transaction carries. *)
Theorem payload_hash_matches (pubkey signing_key : string) (w : World) :
  (forall name rules txn w',
     _create_policy_txn pubkey signing_key name rules w = (Ok txn, w') ->
     exists h,
       Transaction.header txn = txn_header_bytes h /\
       TransactionHeader.payload_sha512 h = sha512_hexdigest (Transaction.payload txn)) /\
  (forall name policy_name,
     exists txn w' h,
       _create_role_txn pubkey signing_key name policy_name w = (Ok txn, w') /\
       Transaction.header txn = txn_header_bytes h /\
       TransactionHeader.payload_sha512 h = sha512_hexdigest (Transaction.payload txn)).
Proof.
  split.
  - intros name rules txn w' Hrun. rewrite create_policy_txn_run in Hrun.
    destruct (policy_entries rules) as [entries|e]; [|discriminate].
    injection Hrun as <- <-. eexists. split; reflexivity.
  - intros name policy_name. rewrite create_role_txn_run.
    do 3 eexists. split; [reflexivity|]. split; reflexivity.
Qed.

(** C7.  A rule whose first token is neither keyword is passed over:
    the loop keeps its entries and raises nothing, so such a rule could
    as well be absent, wherever it stands.  A rule whose tokens start
    with a keyword and a key adds the entry of that keyword and key.
    The loop as a whole gives, in order, one entry for each keyword
    rule, or IndexError when a keyword rule has no key; when every
    keyword rule has a key the entries are built, the transaction is
    returned, and the entries are those of the policy in its payload. *)
Theorem non_key_rules_skipped (rules : list string) :
  (forall entries rule, is_key_rule rule = false -> rule_step entries rule = Ok entries) /\
  policy_entries rules = policy_entries (List.filter is_key_rule rules) /\
  (Forall (fun rule => is_key_rule rule = false) rules -> policy_entries rules = Ok []) /\
  (forall entries, policy_entries rules = Ok entries ->
     map Some entries = map rule_entry (List.filter is_key_rule rules)) /\
  (forall pubkey signing_key name w txn w',
     _create_policy_txn pubkey signing_key name rules w = (Ok txn, w') ->
     exists entries,
       map Some entries = map rule_entry (List.filter is_key_rule rules) /\
       Transaction.payload txn =
         payload_bytes (IdentityPayload.mk IdentityPayload.POLICY
                          (policy_bytes (Policy.mk name entries)))) /\
  (forall entries rule k rest,
     (Py.split " " None rule = "PERMIT_KEY" :: k :: rest ->
      rule_step entries rule =
        Ok (entries ++ [Policy.mkEntry Policy.PERMIT_KEY k])%list) /\
     (Py.split " " None rule = "DENY_KEY" :: k :: rest ->
      rule_step entries rule =
        Ok (entries ++ [Policy.mkEntry Policy.DENY_KEY k])%list)) /\
  (forall before rule after,
     is_key_rule rule = false ->
     policy_entries (before ++ rule :: after) = policy_entries (before ++ after)) /\
  policy_entries rules =
    (if keys_present rules then Ok (omap rule_entry rules) else Raise IndexError) /\
  ((forall rule, In rule rules -> is_key_rule rule = true ->
                 (2 <= length (Py.split " " None rule))%nat) ->
   exists entries,
     policy_entries rules = Ok entries /\
     map Some entries = map rule_entry (List.filter is_key_rule rules) /\
     length entries = length (List.filter is_key_rule rules) /\
     forall pubkey signing_key name w,
       exists txn w',
         _create_policy_txn pubkey signing_key name rules w = (Ok txn, w') /\
         Transaction.payload txn =
           payload_bytes (IdentityPayload.mk IdentityPayload.POLICY
                            (policy_bytes (Policy.mk name entries)))) /\
  policy_entries ["PERMIT_KEY abc"; "note"; "DENY_KEY d"] =
    Ok [Policy.mkEntry Policy.PERMIT_KEY "abc"; Policy.mkEntry Policy.DENY_KEY "d"].
Proof.
  assert (Hentries : forall entries, policy_entries rules = Ok entries ->
            map Some entries = map rule_entry (List.filter is_key_rule rules)).
  { intros entries. rewrite policy_entries_char.
    destruct (keys_present rules) eqn:Hk; [|discriminate].
    intros [= <-]. now apply entries_of_key_rules. }
  assert (Hfilter : forall l, policy_entries l = policy_entries (List.filter is_key_rule l)).
  { intros l. rewrite !policy_entries_char, keys_present_key_rules, omap_key_rules.
    reflexivity. }
  split_ands.
  - apply rule_step_skip.
  - apply Hfilter.
  - apply policy_entries_no_key_rule.
  - exact Hentries.
  - intros pubkey signing_key name w txn w' Hrun.
    rewrite create_policy_txn_run in Hrun.
    destruct (policy_entries rules) as [entries|e] eqn:He; [|discriminate].
    injection Hrun as <- <-. exists entries. split; [|reflexivity].
    now apply Hentries.
  - intros entries rule k rest. split; intros Hsplit;
      unfold rule_step; rewrite Hsplit; reflexivity.
  - intros before rule after Hrule.
    rewrite (Hfilter (before ++ rule :: after)%list), (Hfilter (before ++ after)%list).
    rewrite !List.filter_app. cbn [List.filter]. now rewrite Hrule.
  - apply policy_entries_char.
  - intros Hall.
    assert (Hk : keys_present rules = true).
    { unfold keys_present. apply forallb_forall. intros rule Hin.
      destruct (is_key_rule rule) eqn:Hr; [|reflexivity].
      simpl. unfold has_key. apply Nat.leb_le. now apply Hall. }
    assert (Hok : policy_entries rules = Ok (omap rule_entry rules))
      by (now rewrite policy_entries_char, Hk).
    exists (omap rule_entry rules). split_ands.
    + exact Hok.
    + now apply Hentries.
    + apply Hentries in Hok. apply (f_equal (@length _)) in Hok.
      now rewrite !length_map in Hok.
    + intros pubkey signing_key name w.
      rewrite create_policy_txn_run, Hok. cbv zeta.
      do 2 eexists. split; reflexivity.
  - vm_compute. reflexivity.
Qed.

(** C9.  A keyword rule is indexed at position 1.  When the rule is
    just the keyword, that index is out of range: the step raises
    IndexError instead of passing over the rule, and the builder
    fails with the world as it found it, nothing signed and the clock
    not read.  When every keyword rule has at least two tokens, the
    builder returns a transaction, after signing its header and
    nothing else. *)
Theorem key_rule_needs_key (pubkey signing_key name : string)
    (rules : list string) (w : World) :
  (forall entries rule,
     is_key_rule rule = true ->
     rule_step entries rule =
       (k ← index (Py.split " " None rule) 1;
        Ok (entries ++ [Policy.mkEntry (keyword_type (first_token rule)) k])%list)) /\
  (forall entries,
     rule_step entries "PERMIT_KEY" = Raise IndexError /\
     rule_step entries "DENY_KEY" = Raise IndexError) /\
  (In "PERMIT_KEY" rules \/ In "DENY_KEY" rules ->
     policy_entries rules = Raise IndexError /\
     _create_policy_txn pubkey signing_key name rules w = (Raise IndexError, w)) /\
  ((forall rule, In rule rules -> is_key_rule rule = true ->
                 (2 <= length (Py.split " " None rule))%nat) ->
     policy_entries rules = Ok (omap rule_entry rules) /\
     exists txn,
       _create_policy_txn pubkey signing_key name rules w =
         (Ok txn, mkWorld (S (ticks w)) (signed w ++ [Transaction.header txn]))).
Proof.
  split_ands.
  - apply rule_step_key.
  - intros entries. split; reflexivity.
  - intros Hin.
    assert (Hk : keys_present rules = false).
    { apply not_true_is_false. intros Hk.
      unfold keys_present in Hk. rewrite forallb_forall in Hk.
      destruct Hin as [Hin | Hin]; apply Hk in Hin; discriminate. }
    rewrite create_policy_txn_run, policy_entries_char, Hk. split; reflexivity.
  - intros Hall.
    assert (Hk : keys_present rules = true).
    { unfold keys_present. apply forallb_forall. intros rule Hin.
      destruct (is_key_rule rule) eqn:Hr; [|reflexivity].
      simpl. unfold has_key. apply Nat.leb_le. now apply Hall. }
    rewrite create_policy_txn_run, policy_entries_char, Hk.
    split; [reflexivity|]. cbv zeta.
    match goal with |- exists txn, (Ok ?t, _) = _ => exists t end.
    reflexivity.
Qed.

End BuilderFacts.

Section BuilderExamples.

Lemma example_entries :
  policy_entries example_rules =
    Ok [Policy.mkEntry Policy.PERMIT_KEY "abc"; Policy.mkEntry Policy.DENY_KEY "d"].
Proof. vm_compute. reflexivity. Qed.

Lemma example_policy_run_eq :
  exists txn w', example_policy_run = (Ok txn, w').
Proof.
  unfold example_policy_run.
  rewrite create_policy_txn_run, example_entries. cbv zeta.
  do 2 eexists. reflexivity.
Qed.

Lemma txn_header_fields_witness :
  exists txn w',
    example_policy_run = (Ok txn, w') /\
    exists h,
      Transaction.header txn = @txn_header_bytes stand_in h /\
      identity_header h "pub" [_policy_to_address "policy_1"]
                              [_policy_to_address "policy_1"].
Proof.
  destruct (@txn_header_fields stand_in "pub" "priv" (mkWorld 0 [])) as [Hpolicy _].
  destruct example_policy_run_eq as (txn & w' & Hrun).
  exists txn, w'. split; [exact Hrun|].
  apply (Hpolicy "policy_1" example_rules txn w'). exact Hrun.
Defined.

Lemma payload_hash_matches_witness :
  exists txn w',
    example_policy_run = (Ok txn, w') /\
    exists h,
      Transaction.header txn = @txn_header_bytes stand_in h /\
      TransactionHeader.payload_sha512 h =
        @sha512_hexdigest stand_in (Transaction.payload txn).
Proof.
  destruct (@payload_hash_matches stand_in "pub" "priv" (mkWorld 0 [])) as [Hpolicy _].
  destruct example_policy_run_eq as (txn & w' & Hrun).
  exists txn, w'. split; [exact Hrun|].
  apply (Hpolicy "policy_1" example_rules txn w'). exact Hrun.
Defined.

Lemma non_key_rules_skipped_witness :
  is_key_rule "note" = false /\
  rule_step [Policy.mkEntry Policy.PERMIT_KEY "abc"] "note" =
    Ok [Policy.mkEntry Policy.PERMIT_KEY "abc"] /\
  policy_entries example_rules =
    Ok [Policy.mkEntry Policy.PERMIT_KEY "abc"; Policy.mkEntry Policy.DENY_KEY "d"] /\
  exists txn w',
    example_policy_run = (Ok txn, w') /\
    Transaction.payload txn =
      @payload_bytes stand_in
        (IdentityPayload.mk IdentityPayload.POLICY
           (@policy_bytes stand_in
              (Policy.mk "policy_1"
                 [Policy.mkEntry Policy.PERMIT_KEY "abc";
                  Policy.mkEntry Policy.DENY_KEY "d"]))).
Proof.
  destruct (@non_key_rules_skipped stand_in example_rules)
    as (Hskip & _ & _ & _ & _ & _ & _ & _ & Hbuilt & _).
  destruct Hbuilt as (entries & Hok & Hmap & _ & Htxn).
  { intros rule Hin Hkey. simpl in Hin.
    destruct Hin as [<- | [<- | [<- | []]]];
      first [ vm_compute; lia | vm_compute in Hkey; discriminate Hkey ]. }
  assert (Hes : entries =
            [Policy.mkEntry Policy.PERMIT_KEY "abc"; Policy.mkEntry Policy.DENY_KEY "d"]).
  { vm_compute in Hmap.
    destruct entries as [|e1 [|e2 [|e3 rest]]]; try discriminate Hmap.
    injection Hmap as -> ->. reflexivity. }
  subst entries. split_ands.
  - reflexivity.
  - apply Hskip. reflexivity.
  - exact Hok.
  - apply (Htxn "pub" "priv" "policy_1" (mkWorld 0 [])).
Defined.

Lemma key_rule_needs_key_witness :
  @_create_policy_txn stand_in "pub" "priv" "policy_1"
    ["PERMIT_KEY abc"; "DENY_KEY"] (mkWorld 0 []) = (Raise IndexError, mkWorld 0 []) /\
  policy_entries example_rules =
    Ok [Policy.mkEntry Policy.PERMIT_KEY "abc"; Policy.mkEntry Policy.DENY_KEY "d"].
Proof.
  split.
  - destruct (@key_rule_needs_key stand_in "pub" "priv" "policy_1"
                ["PERMIT_KEY abc"; "DENY_KEY"] (mkWorld 0 []))
      as (_ & _ & Hbare & _).
    apply Hbare. right. simpl. tauto.
  - destruct (@key_rule_needs_key stand_in "pub" "priv" "policy_1"
                example_rules (mkWorld 0 []))
      as (_ & _ & _ & Hgood).
    destruct Hgood as [Hentries _]; [|exact Hentries].
    intros rule Hin Hkey. simpl in Hin.
    destruct Hin as [<- | [<- | [<- | []]]];
      first [ vm_compute; lia | vm_compute in Hkey; discriminate Hkey ].
Defined.

End BuilderExamples.

(* ------------------------------------------------------------------ *)
(** ** Sorting by key                                                  *)
(* ------------------------------------------------------------------ *)

Section SortFacts.
Context {A : Type} (key : A -> string).

Lemma leb_true_le (s1 s2 : string) : String.leb s1 s2 = true -> String.le s1 s2.
Proof. unfold String.le. intros ->. exact I. Qed.

Lemma leb_false_le (s1 s2 : string) : String.leb s1 s2 = false -> String.le s2 s1.
Proof.
  intros Hf. destruct (total String.le s1 s2) as [Hle | Hle]; [|exact Hle].
  unfold String.le in Hle. rewrite Hf in Hle. destruct Hle.
Qed.

Lemma insert_by_perm (x : A) (l : list A) : insert_by key x l ≡ₚ x :: l.
Proof.
  induction l as [|y l IH]; simpl; [reflexivity|].
  destruct (String.leb (key x) (key y)); [reflexivity|].
  rewrite IH. apply Permutation_swap.
Qed.

Lemma sort_by_perm (l : list A) : sort_by key l ≡ₚ l.
Proof.
  induction l as [|x l IH]; simpl; [reflexivity|].
  rewrite insert_by_perm. now rewrite IH.
Qed.

Lemma insert_by_sorted (x : A) (l : list A) :
  StronglySorted (key_le key) l -> StronglySorted (key_le key) (insert_by key x l).
Proof.
  induction 1 as [|y l Hl IH Hy]; simpl.
  - repeat constructor.
  - destruct (String.leb (key x) (key y)) eqn:Hxy.
    + constructor; [now constructor|].
      apply leb_true_le in Hxy. constructor; [exact Hxy|].
      eapply Forall_impl; [exact Hy|].
      intros z Hz. unfold key_le in *. now transitivity (key y).
    + constructor; [exact IH|].
      rewrite insert_by_perm. constructor; [|exact Hy].
      now apply leb_false_le.
Qed.

Lemma sort_by_sorted (l : list A) : StronglySorted (key_le key) (sort_by key l).
Proof.
  induction l as [|x l IH]; simpl; [constructor|].
  now apply insert_by_sorted.
Qed.

(** The sort is stable: elements with the same key keep their order. *)
Lemma insert_by_same_key (k : string) (x : A) (l : list A) :
  List.filter (fun a => String.eqb (key a) k) (insert_by key x l) =
  List.filter (fun a => String.eqb (key a) k) (x :: l).
Proof.
  induction l as [|y l IH]; [reflexivity|].
  cbn [insert_by]. destruct (String.leb (key x) (key y)) eqn:Hxy; [reflexivity|].
  cbn [List.filter] in *. rewrite IH.
  destruct (String.eqb (key x) k) eqn:Hx, (String.eqb (key y) k) eqn:Hy;
    try reflexivity.
  apply String.eqb_eq in Hx, Hy. rewrite Hx, Hy in Hxy.
  pose proof (reflexivity (R := String.le) k) as Hr.
  unfold String.le in Hr. rewrite Hxy in Hr. destruct Hr.
Qed.

Lemma sort_by_stable (k : string) (l : list A) :
  List.filter (fun a => String.eqb (key a) k) (sort_by key l) =
  List.filter (fun a => String.eqb (key a) k) l.
Proof.
  induction l as [|x l IH]; [reflexivity|].
  cbn [sort_by foldr]. rewrite insert_by_same_key.
  cbn [List.filter]. fold (sort_by key l). now rewrite IH.
Qed.

Lemma sort_by_names_sorted (l : list A) :
  StronglySorted String.le (map key (sort_by key l)).
Proof.
  apply (StronglySorted_fmap key (key_le key) String.le); [auto|].
  apply sort_by_sorted.
Qed.

Lemma sort_by_names (l : list A) (n : string) :
  n ∈ map key (sort_by key l) <-> n ∈ map key l.
Proof.
  assert (Hp : map key (sort_by key l) ≡ₚ map key l)
    by (apply Permutation_map, sort_by_perm).
  now rewrite Hp.
Qed.

End SortFacts.

Section OrderFacts.

Lemma sorted_lookup_le (names : list string) (i j : nat) (a b : string) :
  StronglySorted String.le names ->
  (i < j)%nat -> names !! i = Some a -> names !! j = Some b -> String.le a b.
Proof.
  intros Hs. revert i j. induction Hs as [|x l Hl IH Hx]; intros i j Hij Hi Hj.
  - discriminate.
  - destruct j as [|j]; [lia|]. simpl in Hj.
    destruct i as [|i]; simpl in Hi.
    + injection Hi as <-. rewrite Forall_forall in Hx.
      apply Hx. eapply list_elem_of_lookup_2. exact Hj.
    + apply (IH i j); [lia | exact Hi | exact Hj].
Qed.

Lemma sorted_before (names : list string) (i j : nat) (a b : string) :
  StronglySorted String.le names ->
  String.leb b a = false ->
  names !! i = Some a -> names !! j = Some b -> (i < j)%nat.
Proof.
  intros Hs Hba Hi Hj.
  destruct (Nat.lt_trichotomy i j) as [Hlt | [-> | Hgt]]; [exact Hlt | |].
  - rewrite Hi in Hj. injection Hj as ->.
    pose proof (reflexivity (R := String.le) b) as Hr.
    unfold String.le in Hr. rewrite Hba in Hr. destruct Hr.
  - pose proof (sorted_lookup_le names j i b a Hs Hgt Hj Hi) as Hle.
    unfold String.le in Hle. rewrite Hba in Hle. destruct Hle.
Qed.

Lemma sorted_names_in_order (names shown : list string) :
  StronglySorted String.le shown ->
  (forall n, n ∈ shown <-> n ∈ names) ->
  forall out, names_shown out = shown -> shown_in_name_order names out.
Proof.
  intros Hs Hn out Hout. unfold shown_in_name_order. rewrite Hout.
  split_ands; [exact Hs | exact Hn |].
  intros i j Hi Hj. now apply (sorted_before _ i j "alpha" "zeta" Hs).
Qed.

(** The keys of a dictionary after an assignment. *)
Lemma dict_set_keys (k v : string) (d : dict) :
  map fst (dict_set k v d) = map fst d \/
  (map fst (dict_set k v d) = (map fst d ++ [k])%list).
Proof.
  induction d as [|[k' v'] d IH]; simpl; [now right|].
  destruct (String.eqb k' k); simpl; [now left|].
  destruct IH as [-> | ->]; [now left | now right].
Qed.

Lemma dict_set_key_in (k v : string) (d : dict) (n : string) :
  n ∈ map fst (dict_set k v d) <-> n ∈ map fst d \/ n = k.
Proof.
  induction d as [|[k' v'] d IH]; simpl.
  - rewrite list_elem_of_singleton, elem_of_nil. tauto.
  - destruct (String.eqb k' k) eqn:Hk; simpl.
    + apply String.eqb_eq in Hk. subst k'. rewrite !elem_of_cons.
      intuition congruence.
    + rewrite !elem_of_cons, IH. tauto.
Qed.

(** The keys of a dictionary filled from a list. *)
Lemma filled_keys {A : Type} (k v : A -> string) (l : list A) (d : dict) (n : string) :
  n ∈ map fst (fold_left (fun d a => dict_set (k a) (v a) d) l d) <->
  n ∈ map fst d \/ n ∈ map k l.
Proof.
  revert d. induction l as [|a l IH]; intros d; simpl.
  - rewrite elem_of_nil. tauto.
  - rewrite IH, dict_set_key_in, elem_of_cons. intuition congruence.
Qed.

Lemma sorted_snoc (names : list string) (n : string) :
  StronglySorted String.le names ->
  (forall x, x ∈ names -> String.le x n) ->
  StronglySorted String.le (names ++ [n]).
Proof.
  induction 1 as [|y l Hl IH Hy]; intros Hn; simpl.
  - repeat constructor.
  - constructor.
    + apply IH. intros x Hx. apply Hn. now right.
    + apply Forall_app. split; [exact Hy|].
      constructor; [|constructor]. apply Hn. now left.
Qed.

(** Filled from a list in key order, a dictionary has its keys in
    ascending order as inserted. *)
Lemma filled_keys_sorted {A : Type} (k v : A -> string) (l : list A) (d : dict) :
  StronglySorted (key_le k) l ->
  StronglySorted String.le (map fst d) ->
  (forall x a, x ∈ map fst d -> a ∈ l -> String.le x (k a)) ->
  StronglySorted String.le
    (map fst (fold_left (fun d a => dict_set (k a) (v a) d) l d)).
Proof.
  intros Hl. revert d. induction Hl as [|a l Hl IH Ha]; intros d Hd Hbound.
  - exact Hd.
  - simpl. apply IH.
    + destruct (dict_set_keys (k a) (v a) d) as [-> | ->]; [exact Hd|].
      apply sorted_snoc; [exact Hd|].
      intros x Hx. apply (Hbound x a Hx). now left.
    + intros x b Hx Hb. apply dict_set_key_in in Hx as [Hx | ->].
      * apply (Hbound x b Hx). now right.
      * rewrite Forall_forall in Ha. now apply Ha.
Qed.

Lemma doc_in_name_order {A : Type} (k v : A -> string) (fetched : list A)
    (sort_keys : bool) (out : Output) :
  names_shown out =
    map fst (dump_order sort_keys
               (fold_left (fun d a => dict_set (k a) (v a) d) (sort_by k fetched) [])) ->
  shown_in_name_order (map k fetched) out.
Proof.
  intros Hout. eapply sorted_names_in_order; [| |exact Hout].
  - destruct sort_keys; cbn [dump_order].
    + apply sort_by_names_sorted.
    + apply filled_keys_sorted.
      * apply sort_by_sorted.
      * constructor.
      * intros x a Hx. apply elem_of_nil in Hx. destruct Hx.
  - intros n.
    assert (Hd : forall d : dict, n ∈ map fst (dump_order sort_keys d) <-> n ∈ map fst d).
    { intros d. destruct sort_keys; cbn [dump_order]; [apply sort_by_names | reflexivity]. }
    rewrite Hd, filled_keys, sort_by_names, elem_of_nil. tauto.
Qed.

Lemma csv_row_head (policy : Policy.t) :
  List.hd "" (policy_csv_row policy) = Policy.name policy.
Proof.
  unfold policy_csv_row.
  assert (Hgen : forall es rest,
            List.hd "" (fold_left (fun output entry => (output ++ [entry_text entry])%list)
                          es (Policy.name policy :: rest)) = Policy.name policy).
  { induction es as [|e es IH]; intros rest; [reflexivity|].
    simpl. apply IH. }
  apply Hgen.
Qed.

End OrderFacts.

(* ------------------------------------------------------------------ *)
(** ** The listing commands                                            *)
(* ------------------------------------------------------------------ *)

Section ListingFacts.
Context `{Collab}.

Local Ltac list_cases format :=
  destruct (String.eqb format "default") eqn:Hdefault;
  [| destruct (String.eqb format "csv") eqn:Hcsv;
     [| destruct (String.eqb format "json") eqn:Hjson;
        [| destruct (String.eqb format "yaml") eqn:Hyaml ] ] ];
  cbn [orb].

Lemma policy_list_shown (fetched : list Policy.t) (state : State)
    (format : string) (out : Output) :
  accumulate parse_policy_list (state_data state) = Ok fetched ->
  _do_identity_policy_list state format = Ok out ->
  shown_in_name_order (map Policy.name fetched) out /\
  (String.eqb format "default" || String.eqb format "csv" = true ->
   names_shown out = map Policy.name (sort_by Policy.name fetched)).
Proof.
  intros Hacc. unfold _do_identity_policy_list. rewrite Hacc.
  cbn [mbind result_bind]. list_cases format; intros [= <-].
  - assert (Hn : names_shown (Printed (map (fun policy =>
                   (Policy.name policy, policy_default_value policy))
                   (sort_by Policy.name fetched))) =
                 map Policy.name (sort_by Policy.name fetched))
      by (cbn [names_shown]; now rewrite map_map).
    split; [|intros _; exact Hn].
    eapply sorted_names_in_order; [| |exact Hn].
    + apply sort_by_names_sorted.
    + apply sort_by_names.
  - assert (Hn : names_shown (CsvRows (["POLICY NAME"; "ENTRIES"]
                   :: map policy_csv_row (sort_by Policy.name fetched))) =
                 map Policy.name (sort_by Policy.name fetched)).
    { cbn [names_shown tl]. rewrite map_map.
      apply map_ext. intros p. apply csv_row_head. }
    split; [|intros _; exact Hn].
    eapply sorted_names_in_order; [| |exact Hn].
    + apply sort_by_names_sorted.
    + apply sort_by_names.
  - split; [|discriminate].
    apply (doc_in_name_order Policy.name policy_doc_value fetched true). reflexivity.
  - split; [|discriminate].
    apply (doc_in_name_order Policy.name policy_doc_value fetched yaml_sort_keys). reflexivity.
Qed.

Lemma role_list_shown (fetched : list Role.t) (state : State)
    (format : string) (out : Output) :
  accumulate parse_role_list (state_data state) = Ok fetched ->
  _do_identity_role_list state format = Ok out ->
  shown_in_name_order (map Role.name fetched) out /\
  (String.eqb format "default" || String.eqb format "csv" = true ->
   names_shown out = map Role.name (sort_by Role.name fetched)).
Proof.
  intros Hacc. unfold _do_identity_role_list. rewrite Hacc.
  cbn [mbind result_bind]. list_cases format; intros [= <-].
  - assert (Hn : names_shown (Printed (map (fun role =>
                   (Role.name role, role_default_value role))
                   (sort_by Role.name fetched))) =
                 map Role.name (sort_by Role.name fetched))
      by (cbn [names_shown]; now rewrite map_map).
    split; [|intros _; exact Hn].
    eapply sorted_names_in_order; [| |exact Hn].
    + apply sort_by_names_sorted.
    + apply sort_by_names.
  - assert (Hn : names_shown (CsvRows (["KEY"; "VALUE"]
                   :: map (fun role => [Role.name role; Role.policy_name role])
                          (sort_by Role.name fetched))) =
                 map Role.name (sort_by Role.name fetched))
      by (cbn [names_shown tl]; now rewrite map_map).
    split; [|intros _; exact Hn].
    eapply sorted_names_in_order; [| |exact Hn].
    + apply sort_by_names_sorted.
    + apply sort_by_names.
  - split; [|discriminate].
    apply (doc_in_name_order Role.name Role.policy_name fetched true). reflexivity.
  - split; [|discriminate].
    apply (doc_in_name_order Role.name Role.policy_name fetched yaml_sort_keys). reflexivity.
Qed.

(** C10.  Whatever the format, a listing command that prints shows
    the names in ascending order: the names shown are those of the
    decoded values gathered from the state blobs, 'alpha' is shown
    before 'zeta' wherever the blobs had them, and in the default and
    csv formats the entries are those of the list sorted by name.  For
    yaml this holds whether or not the serializer sorts the keys, the
    dictionary being filled from the sorted list.  The command prints
    whenever the blobs decode and the format is one of the four. *)
Theorem listing_sorted_by_name (state : State) (format : string) :
  (forall out, _do_identity_policy_list state format = Ok out ->
     exists fetched,
       accumulate parse_policy_list (state_data state) = Ok fetched /\
       shown_in_name_order (map Policy.name fetched) out /\
       (String.eqb format "default" || String.eqb format "csv" = true ->
        names_shown out = map Policy.name (sort_by Policy.name fetched))) /\
  (forall out, _do_identity_role_list state format = Ok out ->
     exists fetched,
       accumulate parse_role_list (state_data state) = Ok fetched /\
       shown_in_name_order (map Role.name fetched) out /\
       (String.eqb format "default" || String.eqb format "csv" = true ->
        names_shown out = map Role.name (sort_by Role.name fetched))) /\
  (forall fetched,
     accumulate parse_policy_list (state_data state) = Ok fetched ->
     known_format format = true ->
     exists out, _do_identity_policy_list state format = Ok out) /\
  (forall fetched,
     accumulate parse_role_list (state_data state) = Ok fetched ->
     known_format format = true ->
     exists out, _do_identity_role_list state format = Ok out).
Proof.
  split_ands.
  - intros out Hout.
    destruct (accumulate parse_policy_list (state_data state)) as [fetched|e] eqn:Hacc.
    + exists fetched. split; [reflexivity|].
      now apply (policy_list_shown fetched state format out).
    + unfold _do_identity_policy_list in Hout. rewrite Hacc in Hout. discriminate.
  - intros out Hout.
    destruct (accumulate parse_role_list (state_data state)) as [fetched|e] eqn:Hacc.
    + exists fetched. split; [reflexivity|].
      now apply (role_list_shown fetched state format out).
    + unfold _do_identity_role_list in Hout. rewrite Hacc in Hout. discriminate.
  - intros fetched Hacc. unfold _do_identity_policy_list, known_format.
    rewrite Hacc. cbn [mbind result_bind].
    list_cases format; intros Hf; try discriminate; eauto.
  - intros fetched Hacc. unfold _do_identity_role_list, known_format.
    rewrite Hacc. cbn [mbind result_bind].
    list_cases format; intros Hf; try discriminate; eauto.
Qed.

End ListingFacts.

Section ListingExamples.

Lemma example_fetched :
  accumulate (@parse_policy_list stand_in) (state_data example_state) =
    Ok [Policy.mk "zeta" []; Policy.mk "alpha" []; Policy.mk "mid" []].
Proof. vm_compute. reflexivity. Qed.

Lemma listing_sorted_by_name_witness :
  exists out,
    @_do_identity_policy_list stand_in example_state "json" = Ok out /\
    shown_in_name_order ["zeta"; "alpha"; "mid"] out.
Proof.
  destruct (@listing_sorted_by_name stand_in example_state "json")
    as (Hshown & _ & Hruns & _).
  destruct (Hruns _ example_fetched eq_refl) as [out Hout].
  destruct (Hshown out Hout) as (fetched & Hacc & Horder & _).
  rewrite example_fetched in Hacc. injection Hacc as <-.
  exists out. split; [exact Hout | exact Horder].
Defined.

End ListingExamples.

(* ------------------------------------------------------------------ *)
(** ** More on the address codec                                       *)
(* ------------------------------------------------------------------ *)

Section AddressMore.

Lemma split_spent (sep : ascii) (s : string) : Py.split sep (Some 0%nat) s = [s].
Proof.
  induction s as [|c s IH]; [reflexivity|].
  simpl. now rewrite IH.
Qed.

Lemma split_clean (sep : ascii) (budget : option nat) (a : string) :
  count_char sep a = 0%nat -> Py.split sep budget a = [a].
Proof.
  induction a as [|c a IH]; [reflexivity|].
  simpl. destruct (Ascii.eqb c sep); [discriminate|].
  intros Ha. rewrite andb_false_r, (IH Ha). reflexivity.
Qed.

Lemma split_head (sep : ascii) (n : nat) (a s : string) :
  count_char sep a = 0%nat ->
  Py.split sep (Some (S n)) (a ++ String sep s) = a :: Py.split sep (Some n) s.
Proof.
  induction a as [|c a IH]; intros Ha.
  - rewrite app_empty_l. simpl. now rewrite Ascii.eqb_refl.
  - rewrite app_cons. simpl in *. destruct (Ascii.eqb c sep); [discriminate|].
    simpl. now rewrite (IH Ha).
Qed.

Lemma upto_prefix (n : nat) (pre rest : string) :
  String.length pre = n -> Py.upto n (pre ++ rest) = pre.
Proof. intros <-. apply upto_app. Qed.

(** X1.  The two kinds of address never meet: a policy address lies
    under the subtree the policy listing queries and not under the one
    the role listing queries, a role address the other way round; so no
    policy address is a role address. *)
Theorem address_spaces_disjoint (n1 n2 : string) :
  String.prefix policy_subtree (_policy_to_address n1) = true /\
  String.prefix role_subtree (_policy_to_address n1) = false /\
  String.prefix role_subtree (_role_to_address n2) = true /\
  String.prefix policy_subtree (_role_to_address n2) = false /\
  _policy_to_address n1 <> _role_to_address n2.
Proof.
  assert (Hp : String.prefix role_subtree (_policy_to_address n1) = false)
    by reflexivity.
  assert (Hr : String.prefix role_subtree (_role_to_address n2) = true).
  { apply prefix_correct. rewrite role_address_fields.
    apply (upto_app "00001d01"). }
  split_ands.
  - apply prefix_correct. apply (upto_app "00001d00").
  - exact Hp.
  - exact Hr.
  - rewrite role_address_fields. reflexivity.
  - intros Heq. rewrite Heq, Hr in Hp. discriminate.
Qed.

Lemma join_dot (x y : string) (l : list string) :
  Py.join "." (x :: y :: l) = x ++ String "." (Py.join "." (y :: l)).
Proof. reflexivity. Qed.

Lemma join_one (d x : string) : Py.join d [x] = x.
Proof. reflexivity. Qed.

(** X2.  Cutting is the inverse of joining: one to four parts, of
    which the first three hold no dot, joined by '.', are cut into the
    same parts again. *)
Theorem key_parts_of_join (parts : list string) :
  (1 <= length parts <= 4)%nat ->
  (forall i p, parts !! i = Some p -> (i < 3)%nat -> count_char "." p = 0%nat) ->
  key_parts (Py.join "." parts) = parts.
Proof.
  intros Hlen Hclean. unfold key_parts.
  destruct parts as [|a [|b [|c [|d [|e rest]]]]]; cbn [length] in Hlen; try lia.
  - apply split_clean. apply (Hclean 0%nat); [reflexivity | lia].
  - rewrite join_dot, join_one.
    rewrite (split_head "." 2 a) by (apply (Hclean 0%nat); [reflexivity | lia]).
    f_equal. apply split_clean. apply (Hclean 1%nat); [reflexivity | lia].
  - rewrite !join_dot, join_one.
    rewrite (split_head "." 2 a) by (apply (Hclean 0%nat); [reflexivity | lia]).
    rewrite (split_head "." 1 b) by (apply (Hclean 1%nat); [reflexivity | lia]).
    do 2 f_equal. apply split_clean. apply (Hclean 2%nat); [reflexivity | lia].
  - rewrite !join_dot, join_one.
    rewrite (split_head "." 2 a) by (apply (Hclean 0%nat); [reflexivity | lia]).
    rewrite (split_head "." 1 b) by (apply (Hclean 1%nat); [reflexivity | lia]).
    rewrite (split_head "." 0 c) by (apply (Hclean 2%nat); [reflexivity | lia]).
    do 3 f_equal. apply split_spent.
Qed.

Lemma key_parts_of_join_witness :
  key_parts (Py.join "." ["org"; "dept"; "team"; "x.y"]) = ["org"; "dept"; "team"; "x.y"].
Proof.
  apply key_parts_of_join.
  - simpl. lia.
  - intros [|[|[|i]]] p Hp Hi; try lia; injection Hp as <-; reflexivity.
Defined.

(** X3.  Names that share their first [k] components share the start
    of their role addresses: the namespace, the prefix and the first
    [k] slots. *)
Theorem role_address_shared_prefix (n1 n2 : string) (k : nat) :
  (k <= 4)%nat ->
  take k (key_parts n1) = take k (key_parts n2) ->
  Py.upto (covered k) (_role_to_address n1) =
  Py.upto (covered k) (_role_to_address n2).
Proof.
  intros Hk Htake.
  assert (Hfield : forall j, (j < k)%nat ->
            field (key_parts n1) j = field (key_parts n2) j).
  { intros j Hj. unfold field.
    rewrite <- (lookup_take_lt (key_parts n1) k j Hj).
    rewrite <- (lookup_take_lt (key_parts n2) k j Hj).
    now rewrite Htake. }
  rewrite !role_address_fields.
  pose proof (field_length_0 n1) as L1. pose proof (field_length_0 n2) as L2.
  destruct k as [|[|[|[|[|k]]]]]; try lia; cbn [covered].
  - now rewrite !(upto_prefix 8 "00001d01").
  - rewrite <- !(app_assoc_str "00001d01").
    rewrite !upto_prefix by (rewrite length_app; simpl; lia).
    now rewrite (Hfield 0%nat) by lia.
  - rewrite <- !(app_assoc_str "00001d01").
    rewrite <- !(app_assoc_str ("00001d01" ++ _)).
    rewrite !upto_prefix
      by (rewrite !length_app, field_length_S; simpl; lia).
    now rewrite (Hfield 0%nat), (Hfield 1%nat) by lia.
  - rewrite <- !(app_assoc_str "00001d01").
    rewrite <- !(app_assoc_str ("00001d01" ++ _)).
    rewrite <- !(app_assoc_str (("00001d01" ++ _) ++ _)).
    rewrite !upto_prefix
      by (rewrite !length_app, !field_length_S; simpl; lia).
    now rewrite (Hfield 0%nat), (Hfield 1%nat), (Hfield 2%nat) by lia.
  - now rewrite (Hfield 0%nat), (Hfield 1%nat), (Hfield 2%nat), (Hfield 3%nat) by lia.
Qed.

Lemma role_address_shared_prefix_witness :
  Py.upto 38 (_role_to_address "org.dept.x") = Py.upto 38 (_role_to_address "org.dept.y.z").
Proof.
  apply (role_address_shared_prefix "org.dept.x" "org.dept.y.z" 2); [lia | reflexivity].
Defined.

Lemma decode_head_encode_char (c : ascii) (rest : list byte) :
  decode_head (Py.encode_char c ++ rest) = Some (c, rest).
Proof.
  destruct c as [[] [] [] [] [] [] [] []]; reflexivity.
Qed.

(** X4.  The encoding hashed by [_to_hash] tells names apart: two
    names with the same bytes are the same name. *)
Theorem encode_injective (s1 s2 : string) :
  Py.encode s1 = Py.encode s2 -> s1 = s2.
Proof.
  revert s2. induction s1 as [|c1 s1 IH]; intros [|c2 s2] Heq.
  - reflexivity.
  - apply (f_equal decode_head) in Heq.
    change (Py.encode (String c2 s2)) with (Py.encode_char c2 ++ Py.encode s2)%list in Heq.
    rewrite decode_head_encode_char in Heq. discriminate.
  - apply (f_equal decode_head) in Heq.
    change (Py.encode (String c1 s1)) with (Py.encode_char c1 ++ Py.encode s1)%list in Heq.
    rewrite decode_head_encode_char in Heq. discriminate.
  - apply (f_equal decode_head) in Heq.
    change (Py.encode (String c1 s1)) with (Py.encode_char c1 ++ Py.encode s1)%list in Heq.
    change (Py.encode (String c2 s2)) with (Py.encode_char c2 ++ Py.encode s2)%list in Heq.
    rewrite !decode_head_encode_char in Heq.
    injection Heq as -> Hrest. f_equal. now apply IH.
Qed.

Lemma encode_injective_witness :
  String (ascii_of_nat 233) "" = String (ascii_of_nat 233) "".
Proof. apply encode_injective. reflexivity. Defined.

End AddressMore.

(* ------------------------------------------------------------------ *)
(** ** More on the policy rules                                        *)
(* ------------------------------------------------------------------ *)

Section RuleMore.

Lemma split_head_all (sep : ascii) (a s : string) :
  count_char sep a = 0%nat ->
  Py.split sep None (a ++ String sep s) = a :: Py.split sep None s.
Proof.
  induction a as [|c a IH]; intros Ha.
  - rewrite app_empty_l. simpl. now rewrite Ascii.eqb_refl.
  - rewrite app_cons. simpl in *. destruct (Ascii.eqb c sep); [discriminate|].
    simpl. now rewrite (IH Ha).
Qed.

Lemma space_app (s : string) : " " ++ s = String " " s.
Proof. reflexivity. Qed.

(** X5.  The key of a keyword rule is its second token and nothing
    more: whatever follows a further space is dropped without a word. *)
Theorem rule_key_is_second_token (entries : list Policy.Entry)
    (keyword k rest : string) :
  keyword = "PERMIT_KEY" \/ keyword = "DENY_KEY" ->
  count_char " " k = 0%nat ->
  rule_step entries (keyword ++ " " ++ k) =
    Ok (entries ++ [Policy.mkEntry (keyword_type keyword) k])%list /\
  rule_step entries (keyword ++ " " ++ k ++ " " ++ rest) =
    Ok (entries ++ [Policy.mkEntry (keyword_type keyword) k])%list.
Proof.
  intros Hkw Hk.
  assert (Hclean : count_char " " keyword = 0%nat)
    by (destruct Hkw as [-> | ->]; reflexivity).
  assert (Hsteps : forall tokens,
            rule_step_on entries (keyword :: k :: tokens) =
              Ok (entries ++ [Policy.mkEntry (keyword_type keyword) k])%list).
  { intros tokens. destruct Hkw as [-> | ->]; reflexivity. }
  unfold rule_step_on in Hsteps. split.
  - unfold rule_step. rewrite space_app, (split_head_all " " keyword k Hclean).
    rewrite (split_clean " " None k Hk). apply (Hsteps []).
  - unfold rule_step. rewrite !space_app, (split_head_all " " keyword _ Hclean).
    rewrite (split_head_all " " k rest Hk). apply Hsteps.
Qed.

Lemma rule_key_is_second_token_witness :
  rule_step [] "DENY_KEY 02ab of the auditor" =
    Ok [Policy.mkEntry Policy.DENY_KEY "02ab"].
Proof.
  apply (rule_key_is_second_token [] "DENY_KEY" "02ab" "of the auditor");
    [now right | reflexivity].
Defined.

(** X6.  A rule that is empty or starts with a space is passed over,
    whatever follows: its first token is the empty string. *)
Theorem blank_start_rule_skipped (entries : list Policy.Entry) (s : string) :
  rule_step entries "" = Ok entries /\
  rule_step entries (String " " s) = Ok entries /\
  policy_entries [String " " s] = Ok [].
Proof.
  assert (Hskip : forall es, rule_step es (String " " s) = Ok es).
  { intros es. apply rule_step_skip. unfold is_key_rule, first_token. simpl.
    reflexivity. }
  split_ands.
  - reflexivity.
  - apply Hskip.
  - unfold policy_entries. cbn [for_each]. now rewrite Hskip.
Qed.

Lemma listable_rule (e : Policy.Entry) :
  listable e ->
  rule_entry (entry_text e) = Some e /\
  implb (is_key_rule (entry_text e)) (has_key (entry_text e)) = true.
Proof.
  destruct e as [t k]. intros [Ht Hk]. simpl in Ht, Hk.
  unfold rule_entry, is_key_rule, has_key, first_token, entry_text. simpl Policy.type.
  simpl Policy.key.
  assert (Hclean : count_char " " (Policy.Type_Name t) = 0%nat) by (now destruct t).
  rewrite space_app, (split_head_all " " _ k Hclean), (split_clean " " None k Hk).
  destruct t; [congruence | split; reflexivity | split; reflexivity].
Qed.

(** X7.  What the listing prints for an entry can be given back as a
    rule: the texts of entries with a keyword type and a key without
    space are read back as those very entries, in order. *)
Theorem listed_entries_read_back (es : list Policy.Entry) :
  Forall listable es -> policy_entries (map entry_text es) = Ok es.
Proof.
  intros Hes. rewrite policy_entries_char.
  induction Hes as [|e es He Hes IH]; [reflexivity|].
  destruct (listable_rule e He) as [Hentry Hkeys].
  cbn [map keys_present forallb]. fold (keys_present (map entry_text es)).
  rewrite Hkeys, omap_cons, Hentry. cbn [andb].
  destruct (keys_present (map entry_text es)); [|discriminate].
  injection IH as ->. reflexivity.
Qed.

Lemma listed_entries_read_back_witness :
  policy_entries (map entry_text [Policy.mkEntry Policy.PERMIT_KEY "03cd";
                                  Policy.mkEntry Policy.DENY_KEY "02ab"]) =
    Ok [Policy.mkEntry Policy.PERMIT_KEY "03cd"; Policy.mkEntry Policy.DENY_KEY "02ab"].
Proof.
  apply listed_entries_read_back.
  repeat constructor; simpl; congruence.
Defined.

(** X8.  Rule lists compose: the entries of two lists put end to end
    are the entries of the first followed by those of the second, and
    the whole fails as soon as either part does. *)
Theorem policy_entries_app (rules1 rules2 : list string) :
  policy_entries (rules1 ++ rules2) =
    (entries1 ← policy_entries rules1;
     entries2 ← policy_entries rules2;
     Ok (entries1 ++ entries2)%list).
Proof.
  rewrite !policy_entries_char.
  unfold keys_present. rewrite forallb_app.
  fold (keys_present rules1). fold (keys_present rules2).
  destruct (keys_present rules1); [|reflexivity].
  destruct (keys_present rules2); [|reflexivity].
  cbn [andb mbind result_bind]. f_equal.
  induction rules1 as [|r rules1 IH]; [reflexivity|].
  rewrite <- app_comm_cons, !omap_cons, IH.
  now destruct (rule_entry r).
Qed.

End RuleMore.

(* ------------------------------------------------------------------ *)
(** ** More on the listing                                             *)
(* ------------------------------------------------------------------ *)

Section ListingMore.
Context `{Collab}.

Lemma accumulate_from {A : Type} (parse : string -> result (list A))
    (blobs : list string) (acc : list A) :
  for_each (fun printable state_value =>
              parsed ← parse state_value; Ok (printable ++ parsed)%list) blobs acc =
  match accumulate parse blobs with
  | Ok fetched => Ok (acc ++ fetched)%list
  | Raise e => Raise e
  end.
Proof.
  unfold accumulate. revert acc. induction blobs as [|b blobs IH]; intros acc.
  - simpl. now rewrite app_nil_r.
  - cbn [for_each]. destruct (parse b) as [l|e]; [|reflexivity].
    cbn [mbind result_bind]. rewrite (IH (acc ++ l)%list), (IH ([] ++ l)%list).
    destruct (for_each _ blobs []); [|reflexivity].
    now rewrite app_assoc.
Qed.

Lemma accumulate_cons {A : Type} (parse : string -> result (list A))
    (b : string) (blobs : list string) :
  accumulate parse (b :: blobs) =
    (parsed ← parse b; rest ← accumulate parse blobs; Ok (parsed ++ rest)%list).
Proof.
  unfold accumulate at 1. cbn [for_each].
  destruct (parse b) as [l|e]; [|reflexivity].
  cbn [mbind result_bind]. apply (accumulate_from parse blobs ([] ++ l)%list).
Qed.

(** X9.  The values gathered from the state blobs are those of each
    blob, blob after blob, when every blob decodes; the first blob that
    does not decode ends the listing with its own error. *)
Theorem accumulate_all {A : Type} (parse : string -> result (list A))
    (blobs : list string) :
  (forall fetched,
     accumulate parse blobs = Ok fetched <->
     exists lists, Forall2 (fun b l => parse b = Ok l) blobs lists /\
                   fetched = concat lists) /\
  (forall before b after e,
     blobs = (before ++ b :: after)%list ->
     Forall (fun b' => exists l, parse b' = Ok l) before ->
     parse b = Raise e ->
     accumulate parse blobs = Raise e).
Proof.
  split.
  - induction blobs as [|b blobs IH]; intros fetched.
    + split.
      * intros [= <-]. exists []. split; [constructor | reflexivity].
      * intros (lists & Hall & ->). inversion Hall. reflexivity.
    + rewrite accumulate_cons. split.
      * destruct (parse b) as [l|e] eqn:Hb; [|discriminate].
        cbn [mbind result_bind].
        destruct (accumulate parse blobs) as [rest|e] eqn:Hrest; [|discriminate].
        intros [= <-]. destruct (proj1 (IH rest) eq_refl) as (lists & Hall & ->).
        exists (l :: lists). split; [now constructor | reflexivity].
      * intros (lists & Hall & ->). inversion Hall as [|? l ? lists' Hb Hall']; subst.
        rewrite Hb. cbn [mbind result_bind].
        rewrite (proj2 (IH (concat lists')) (ex_intro _ lists' (conj Hall' eq_refl))).
        reflexivity.
  - intros before b after e -> Hbefore Hb.
    induction Hbefore as [|b' before [l Hl] Hbefore IH].
    + rewrite app_nil_l, accumulate_cons, Hb. reflexivity.
    + rewrite <- app_comm_cons, accumulate_cons, Hl. cbn [mbind result_bind].
      now rewrite IH.
Qed.

(** X10.  The width left for a value is never below 15.  A value that
    fits is shown as it is; a longer one is cut to the width and
    followed by three dots, which makes it three characters longer than
    the width. *)
Theorem clip_bounds (name s : string) :
  let width := value_width name in
  (15 <= width)%Z /\
  ((Z.of_nat (String.length s) <= width)%Z -> clip width s = s) /\
  ((width < Z.of_nat (String.length s))%Z ->
     clip width s = Py.upto (Z.to_nat width) s ++ "..." /\
     Z.of_nat (String.length (clip width s)) = (width + 3)%Z).
Proof.
  intros width.
  assert (Hw : (15 <= width)%Z).
  { unfold width, value_width, _MIN_PRINT_WIDTH.
    destruct (Z.gtb_spec (tty_width - Z.of_nat (String.length name) - 3) 15); lia. }
  split_ands.
  - exact Hw.
  - intros Hfit. unfold clip. destruct (Z.gtb_spec (Z.of_nat (String.length s)) width);
      [lia | reflexivity].
  - intros Hlong. unfold clip.
    destruct (Z.gtb_spec (Z.of_nat (String.length s)) width); [|lia].
    split; [reflexivity|].
    rewrite length_app, upto_length. simpl String.length. lia.
Qed.

(** X11.  A format that is none of the four is refused with
    'Unknown format', but only after the blobs were decoded: a blob that
    does not decode decides the error whatever the format. *)
Theorem listing_unknown_format (state : State) (format : string) :
  (known_format format = false ->
   (forall fetched,
      accumulate parse_policy_list (state_data state) = Ok fetched ->
      _do_identity_policy_list state format =
        Raise (AssertionError ("Unknown format " ++ format))) /\
   (forall fetched,
      accumulate parse_role_list (state_data state) = Ok fetched ->
      _do_identity_role_list state format =
        Raise (AssertionError ("Unknown format " ++ format)))) /\
  (forall e, accumulate parse_policy_list (state_data state) = Raise e ->
             _do_identity_policy_list state format = Raise e) /\
  (forall e, accumulate parse_role_list (state_data state) = Raise e ->
             _do_identity_role_list state format = Raise e).
Proof.
  split_ands.
  - unfold known_format. intros Hf.
    apply orb_false_iff in Hf as [Hf Hyaml].
    apply orb_false_iff in Hf as [Hf Hjson].
    apply orb_false_iff in Hf as [Hdefault Hcsv].
    split; intros fetched Hacc.
    + unfold _do_identity_policy_list.
      rewrite Hacc, Hdefault, Hcsv, Hjson, Hyaml. reflexivity.
    + unfold _do_identity_role_list.
      rewrite Hacc, Hdefault, Hcsv, Hjson, Hyaml. reflexivity.
  - intros e Hacc. unfold _do_identity_policy_list. now rewrite Hacc.
  - intros e Hacc. unfold _do_identity_role_list. now rewrite Hacc.
Qed.

End ListingMore.

Section ListingMoreExamples.

Lemma accumulate_all_witness :
  accumulate (@parse_policy_list stand_in) ["zeta,alpha"; "mid"] =
    Ok [Policy.mk "zeta" []; Policy.mk "alpha" []; Policy.mk "mid" []].
Proof.
  destruct (accumulate_all (@parse_policy_list stand_in) ["zeta,alpha"; "mid"])
    as [Hok _].
  apply Hok.
  exists [[Policy.mk "zeta" []; Policy.mk "alpha" []]; [Policy.mk "mid" []]].
  split; [|reflexivity].
  repeat constructor.
Defined.

Lemma clip_bounds_witness :
  clip 15 "0123456789abcdefg" = "0123456789abcde..." /\
  String.length (clip 15 "0123456789abcdefg") = 18%nat.
Proof.
  destruct (@clip_bounds stand_in
              "a name of sixty-two characters, so that the width is the least"
              "0123456789abcdefg") as (_ & _ & Hlong).
  destruct Hlong as [Hcut Hlen]; [vm_compute; reflexivity|].
  split; [exact Hcut|]. vm_compute in Hlen |- *. reflexivity.
Defined.

Lemma listing_unknown_format_witness :
  @_do_identity_policy_list stand_in example_state "xml" =
    Raise (AssertionError "Unknown format xml").
Proof.
  destruct (@listing_unknown_format stand_in example_state "xml") as (Hunknown & _).
  destruct (Hunknown eq_refl) as [Hpolicy _].
  apply (Hpolicy _ example_fetched).
Defined.

End ListingMoreExamples.

Section ListingRows.
Context `{Collab}.




End ListingRows.

Section DictFacts.

Lemma dict_set_get (k v n : string) (d : dict) :
  dict_get n (dict_set k v d) = if String.eqb k n then Some v else dict_get n d.
Proof.
  induction d as [|[k' v'] d IH]; [reflexivity|].
  cbn [dict_set]. destruct (String.eqb k' k) eqn:Hk.
  - apply String.eqb_eq in Hk. subst k'. cbn [dict_get].
    now destruct (String.eqb k n).
  - cbn [dict_get]. rewrite IH.
    destruct (String.eqb k' n) eqn:Hn, (String.eqb k n) eqn:Hkn; try reflexivity.
    apply String.eqb_eq in Hn, Hkn. subst. rewrite String.eqb_refl in Hk. discriminate.
Qed.

Lemma dict_set_nodup (k v : string) (d : dict) :
  NoDup (map fst d) -> NoDup (map fst (dict_set k v d)).
Proof.
  induction d as [|[k' v'] d IH]; intros Hd.
  - simpl. constructor; [apply not_elem_of_nil | constructor].
  - cbn [dict_set]. destruct (String.eqb k' k) eqn:Hk; [exact Hd|].
    cbn [map fst] in *. apply NoDup_cons in Hd as [Hk' Hd].
    apply NoDup_cons. split; [|now apply IH].
    rewrite dict_set_key_in. intros [Hin | ->]; [now apply Hk'|].
    rewrite String.eqb_refl in Hk. discriminate.
Qed.

Lemma dict_get_elem (d : dict) (n v : string) :
  NoDup (map fst d) -> ((n, v) ∈ d <-> dict_get n d = Some v).
Proof.
  induction d as [|[k' v'] d IH]; intros Hd.
  - simpl. rewrite elem_of_nil. split; [tauto | discriminate].
  - cbn [map fst] in Hd. apply NoDup_cons in Hd as [Hk' Hd].
    rewrite elem_of_cons, (IH Hd). cbn [dict_get].
    destruct (String.eqb k' n) eqn:Hn.
    + apply String.eqb_eq in Hn. subst k'. split.
      * intros [[= ->] | Hget]; [reflexivity|].
        exfalso. apply Hk'. apply (proj2 (IH Hd)) in Hget.
        change n with (fst (n, v)). now apply list_elem_of_fmap_2.
      * intros [= ->]. now left.
    + apply String.eqb_neq in Hn. split.
      * intros [[= -> ->] | Hget]; [congruence | exact Hget].
      * intros Hget. now right.
Qed.

Lemma filled_get {A : Type} (k v : A -> string) (l : list A) (d : dict) (n : string) :
  dict_get n (fold_left (fun d a => dict_set (k a) (v a) d) l d) =
    match last (with_key k n l) with
    | Some a => Some (v a)
    | None => dict_get n d
    end.
Proof.
  revert d. induction l as [|a l IH]; intros d; [reflexivity|].
  cbn [fold_left]. rewrite IH, dict_set_get.
  unfold with_key. cbn [List.filter]. fold (with_key k n l).
  destruct (String.eqb (k a) n); [|reflexivity].
  rewrite last_cons. now destruct (last (with_key k n l)).
Qed.

Lemma filled_nodup {A : Type} (k v : A -> string) (l : list A) (d : dict) :
  NoDup (map fst d) ->
  NoDup (map fst (fold_left (fun d a => dict_set (k a) (v a) d) l d)).
Proof.
  revert d. induction l as [|a l IH]; intros d Hd; [exact Hd|].
  cbn [fold_left]. apply IH. now apply dict_set_nodup.
Qed.

Lemma doc_items_last {A : Type} (k v : A -> string) (fetched : list A)
    (sort_keys : bool) :
  let items :=
    dump_order sort_keys
      (fold_left (fun d a => dict_set (k a) (v a) d) (sort_by k fetched) []) in
  NoDup (map fst items) /\
  forall n x, (n, x) ∈ items <->
              exists a, last (with_key k n fetched) = Some a /\ x = v a.
Proof.
  set (filled := fold_left (fun d a => dict_set (k a) (v a) d) (sort_by k fetched) []).
  assert (Hnd : NoDup (map fst filled)) by (apply filled_nodup; constructor).
  assert (Hget : forall n x, (n, x) ∈ filled <->
                   exists a, last (with_key k n fetched) = Some a /\ x = v a).
  { intros n x. rewrite (dict_get_elem filled n x Hnd).
    unfold filled. rewrite filled_get.
    unfold with_key. rewrite sort_by_stable. fold (with_key k n fetched).
    destruct (last (with_key k n fetched)) as [a|].
    - split; [intros [= <-]; eauto | intros (a' & [= <-] & ->); reflexivity].
    - split; [discriminate | intros (a' & Ha & _); discriminate]. }
  intros items. subst items. destruct sort_keys; cbn [dump_order].
  - pose proof (sort_by_perm fst filled) as Hperm. split.
    + assert (Hp : map fst (sort_by fst filled) ≡ₚ map fst filled)
        by (now apply Permutation_map).
      now rewrite Hp.
    + intros n x. rewrite Hperm. apply Hget.
  - split; [exact Hnd | exact Hget].
Qed.

End DictFacts.

Section ListingDocs.
Context `{Collab}.

(** X13.  In json and yaml every name is shown once, with the value
    of the last fetched policy or role of that name: values of the same
    name are not all shown, unlike in the other two formats. *)
Theorem listing_doc_one_per_name (state : State) (format : string) :
  String.eqb format "json" || String.eqb format "yaml" = true ->
  (forall fetched,
     accumulate parse_policy_list (state_data state) = Ok fetched ->
     exists out,
       _do_identity_policy_list state format = Ok out /\
       NoDup (names_shown out) /\
       forall n v, (n, v) ∈ doc_items out <->
         exists p, last (with_key Policy.name n fetched) = Some p /\
                   v = policy_doc_value p) /\
  (forall fetched,
     accumulate parse_role_list (state_data state) = Ok fetched ->
     exists out,
       _do_identity_role_list state format = Ok out /\
       NoDup (names_shown out) /\
       forall n v, (n, v) ∈ doc_items out <->
         exists r, last (with_key Role.name n fetched) = Some r /\
                   v = Role.policy_name r).
Proof.
  intros Hformat.
  assert (Hdefault : String.eqb format "default" = false).
  { destruct (String.eqb_spec format "default") as [-> |]; [discriminate | reflexivity]. }
  assert (Hcsv : String.eqb format "csv" = false).
  { destruct (String.eqb_spec format "csv") as [-> |]; [discriminate | reflexivity]. }
  split; intros fetched Hacc.
  - unfold _do_identity_policy_list. rewrite Hacc. cbn [mbind result_bind].
    rewrite Hdefault, Hcsv, Hformat.
    destruct (String.eqb format "json"); eexists; (split; [reflexivity|]);
      cbn [names_shown doc_items];
      apply (doc_items_last Policy.name policy_doc_value fetched).
  - unfold _do_identity_role_list. rewrite Hacc. cbn [mbind result_bind].
    rewrite Hdefault, Hcsv, Hformat.
    destruct (String.eqb format "json"); eexists; (split; [reflexivity|]);
      cbn [names_shown doc_items];
      apply (doc_items_last Role.name Role.policy_name fetched).
Qed.

End ListingDocs.

(* ------------------------------------------------------------------ *)
(** ** The create commands                                             *)
(* ------------------------------------------------------------------ *)

Section CreateFacts.
Context `{Collab} `{Platform}.

Lemma read_signing_keys_run (key_file : option string) (h : Host) :
  _read_signing_keys key_file h =
    match read_text (key_filename key_file) with
    | inl content =>
        (Done (generate_pubkey (str_strip content), str_strip content), h)
    | inr e => (Failed (CliException ("Unable to read key file: " ++ e)), h)
    end.
Proof.
  unfold _read_signing_keys. now destruct (read_text (key_filename key_file)).
Qed.

(** Up to the delivery, a create command whose key file can be read
    and whose rules pass makes one signed batch and nothing else. *)
Lemma create_run (kind : create_kind) (args : Args.t) (h : Host) (content : string) :
  read_text (key_filename (Args.key args)) = inl content ->
  rules_pass kind args = true ->
  exists txn batch h2,
    signed_batch (generate_pubkey (str_strip content)) (str_strip content) txn batch h h2 /\
    nothing_out h h2 /\
    create_command kind args h = deliver args (BatchList.mk [batch]) h2.
Proof.
  intros Hread Hrules. destruct kind; cbn [create_command rules_pass] in *.
  - unfold _do_identity_policy_create, mbind, C_bind.
    rewrite read_signing_keys_run, Hread. cbn [fst snd].
    unfold run_builder at 1.
    rewrite create_policy_txn_run, policy_entries_char, Hrules. cbv zeta.
    do 3 eexists. split; [|split; [|reflexivity]].
    + unfold signed_batch. cbn. rewrite <- app_assoc. split_ands; reflexivity.
    + unfold nothing_out. cbn. split_ands; reflexivity.
  - unfold _do_identity_role_create, mbind, C_bind.
    rewrite read_signing_keys_run, Hread. cbn [fst snd].
    unfold run_builder at 1.
    rewrite create_role_txn_run. cbv zeta.
    do 3 eexists. split; [|split; [|reflexivity]].
    + unfold signed_batch. cbn. rewrite <- app_assoc. split_ands; reflexivity.
    + unfold nothing_out. cbn. split_ands; reflexivity.
Qed.

(** X14.  A create command whose key file cannot be read ends with
    'Unable to read key file' and the text of the error, and has done
    nothing: no clock read, nothing signed, written or sent. *)
Theorem create_key_unreadable (kind : create_kind) (args : Args.t) (h : Host)
    (e : string) :
  read_text (key_filename (Args.key args)) = inr e ->
  create_command kind args h =
    (Failed (CliException ("Unable to read key file: " ++ e)), h).
Proof.
  intros Hread. destruct kind; cbn [create_command].
  - unfold _do_identity_policy_create, mbind, C_bind.
    now rewrite read_signing_keys_run, Hread.
  - unfold _do_identity_role_create, mbind, C_bind.
    now rewrite read_signing_keys_run, Hread.
Qed.

(** X15.  A policy creation with a keyword rule that has no key ends
    with IndexError once the key file is read, and has done nothing
    else: no clock read, nothing signed, written or sent. *)
Theorem policy_create_bad_rule (args : Args.t) (h : Host) (content : string) :
  read_text (key_filename (Args.key args)) = inl content ->
  keys_present (Args.rule args) = false ->
  _do_identity_policy_create args h = (Failed (Exn IndexError), h).
Proof.
  intros Hread Hrules. unfold _do_identity_policy_create, mbind, C_bind.
  rewrite read_signing_keys_run, Hread. cbn [fst snd].
  unfold run_builder at 1.
  rewrite create_policy_txn_run, policy_entries_char, Hrules.
  now destruct h.
Qed.

(** X16.  With an output file named, a create command that goes
    through writes the one batch list to that file and sends nothing,
    a URL being given or not: the list holds one batch of one
    transaction, signed with the key of the key file stripped of its
    surrounding white space. *)
Theorem create_writes_file (kind : create_kind) (args : Args.t) (h : Host)
    (content path : string) :
  read_text (key_filename (Args.key args)) = inl content ->
  rules_pass kind args = true ->
  Args.output args = Some path ->
  (forall data, write_bytes path data = None) ->
  exists txn batch h',
    create_command kind args h = (Done tt, h') /\
    signed_batch (generate_pubkey (str_strip content)) (str_strip content) txn batch h h' /\
    written h' = (written h ++ [(path, batch_list_bytes (BatchList.mk [batch]))])%list /\
    sent h' = sent h /\
    printed h' = printed h.
Proof.
  intros Hread Hrules Hout Hwrite.
  destruct (create_run kind args h content Hread Hrules)
    as (txn & batch & h2 & Hsigned & (Hw & Hs & Hp) & ->).
  exists txn, batch. unfold deliver. rewrite Hout, Hwrite.
  eexists. split; [reflexivity|]. cbn. rewrite Hw, Hs, Hp.
  split_ands; try reflexivity.
  unfold signed_batch in *. cbn. exact Hsigned.
Qed.

(** X17.  With no output file and a URL, a create command that goes
    through sends the one batch list to that URL and writes no file. *)
Theorem create_sends (kind : create_kind) (args : Args.t) (h : Host)
    (content url : string) :
  read_text (key_filename (Args.key args)) = inl content ->
  rules_pass kind args = true ->
  Args.output args = None ->
  Args.url args = Some url ->
  (forall batch_list, send_batches url batch_list = None) ->
  exists txn batch h',
    create_command kind args h = (Done tt, h') /\
    signed_batch (generate_pubkey (str_strip content)) (str_strip content) txn batch h h' /\
    sent h' = (sent h ++ [(url, BatchList.mk [batch])])%list /\
    written h' = written h /\
    printed h' = printed h.
Proof.
  intros Hread Hrules Hout Hurl Hsend.
  destruct (create_run kind args h content Hread Hrules)
    as (txn & batch & h2 & Hsigned & (Hw & Hs & Hp) & ->).
  exists txn, batch. unfold deliver. rewrite Hout, Hurl, Hsend.
  eexists. split; [reflexivity|]. cbn. rewrite Hw, Hs, Hp.
  split_ands; try reflexivity.
  unfold signed_batch in *. cbn. exact Hsigned.
Qed.

(** X18.  A delivery that fails, fails late: with neither file nor URL
    the command ends with 'No target for create set.', with a file that
    cannot be written with 'Unable to write to batch file', with a
    send that is refused with the message of the client; each time the
    transaction and the batch are already made and signed, and nothing
    is written or sent. *)
Theorem create_fails_after_signing (kind : create_kind) (args : Args.t) (h : Host)
    (content : string) :
  read_text (key_filename (Args.key args)) = inl content ->
  rules_pass kind args = true ->
  forall f,
    (Args.output args = None /\ Args.url args = None /\
     f = Exn (AssertionError "No target for create set.")) \/
    (exists path e, Args.output args = Some path /\
       (forall data, write_bytes path data = Some e) /\
       f = CliException ("Unable to write to batch file: " ++ e)) \/
    (exists url msg, Args.output args = None /\ Args.url args = Some url /\
       (forall batch_list, send_batches url batch_list = Some msg) /\
       f = CliException msg) ->
    exists txn batch h',
      create_command kind args h = (Failed f, h') /\
      signed_batch (generate_pubkey (str_strip content)) (str_strip content) txn batch h h' /\
      nothing_out h h'.
Proof.
  intros Hread Hrules f Hcase.
  destruct (create_run kind args h content Hread Hrules)
    as (txn & batch & h2 & Hsigned & Hnothing & ->).
  exists txn, batch, h2. split; [|split; assumption].
  unfold deliver.
  destruct Hcase as [(Hout & Hurl & ->) | [(path & e & Hout & Hwrite & ->)
                                          | (url & msg & Hout & Hurl & Hsend & ->)]].
  - now rewrite Hout, Hurl.
  - now rewrite Hout, Hwrite.
  - now rewrite Hout, Hurl, Hsend.
Qed.

End CreateFacts.

(* ------------------------------------------------------------------ *)
(** ** The key file                                                    *)
(* ------------------------------------------------------------------ *)

Section KeyFileFacts.
Context `{Platform}.

Lemma ends_with_sep_app (s : string) (c : ascii) (t : string) :
  ends_with_sep (s ++ String c t) = ends_with_sep (String c t).
Proof.
  induction s as [|a s IH]; [reflexivity|].
  rewrite app_cons. cbn [ends_with_sep].
  destruct (s ++ String c t) eqn:Hs; [|exact IH].
  destruct s; discriminate.
Qed.

Lemma eqb_app_nonempty (s : string) (c : ascii) (t : string) :
  String.eqb (s ++ String c t) "" = false.
Proof. now destruct s. Qed.

Lemma starts_with_sep_app (u t : string) :
  starts_with_sep u = false -> starts_with_sep t = false ->
  starts_with_sep (u ++ t) = false.
Proof. destruct u; [now rewrite app_empty_l | now rewrite app_cons]. Qed.

Lemma path_join_step_plain (path b : string) :
  starts_with_sep b = false -> String.eqb path "" = false ->
  ends_with_sep path = false ->
  path_join_step path b = path ++ "/" ++ b.
Proof. unfold path_join_step. now intros -> -> ->. Qed.

Lemma path_join_step_sep (path b : string) :
  starts_with_sep b = false -> ends_with_sep path = true ->
  path_join_step path b = path ++ b.
Proof. unfold path_join_step. intros -> ->. now rewrite orb_true_r. Qed.

(** X19.  With no key file named, the key is read from
    [<home>/.sawtooth/keys/<user>.priv], for a user name that does not
    start with a slash; a home directory that ends with a slash gets no
    second one. *)
Theorem default_key_path :
  starts_with_sep user_name = false ->
  (home_dir <> "" -> ends_with_sep home_dir = false ->
   key_filename None = home_dir ++ "/.sawtooth/keys/" ++ user_name ++ ".priv") /\
  (ends_with_sep home_dir = true ->
   key_filename None = home_dir ++ ".sawtooth/keys/" ++ user_name ++ ".priv").
Proof.
  intros Huser.
  assert (Hfile : starts_with_sep (user_name ++ ".priv") = false)
    by (now apply starts_with_sep_app).
  assert (Hrest : forall path,
            path_join_step (path_join_step (path ++ ".sawtooth") "keys")
                           (user_name ++ ".priv") =
            path ++ ".sawtooth/keys/" ++ user_name ++ ".priv").
  { intros path.
    rewrite (path_join_step_plain (path ++ ".sawtooth") "keys");
      [| reflexivity | apply eqb_app_nonempty | apply ends_with_sep_app].
    rewrite <- (app_assoc_str (path ++ ".sawtooth") "/" "keys").
    rewrite (path_join_step_plain _ (user_name ++ ".priv"));
      [| exact Hfile | apply eqb_app_nonempty | apply ends_with_sep_app].
    rewrite !app_assoc_str. reflexivity. }
  unfold key_filename, os_path_join. split.
  - intros Hhome Hend. cbn [fold_left].
    rewrite (path_join_step_plain home_dir ".sawtooth");
      [| reflexivity | now apply String.eqb_neq | exact Hend].
    rewrite <- (app_assoc_str home_dir "/" ".sawtooth"), Hrest.
    rewrite !app_assoc_str. reflexivity.
  - intros Hend. cbn [fold_left].
    rewrite (path_join_step_sep home_dir ".sawtooth"); [| reflexivity | exact Hend].
    apply Hrest.
Qed.

Lemma all_space_cons (c : ascii) (s : string) :
  all_space (String c s) = is_space c && all_space s.
Proof. reflexivity. Qed.

Lemma lstrip_app (s t : string) :
  str_lstrip (s ++ t) = if all_space s then str_lstrip t else str_lstrip s ++ t.
Proof.
  induction s as [|c s IH]; [reflexivity|].
  rewrite app_cons, all_space_cons. cbn [str_lstrip].
  destruct (is_space c); [exact IH | reflexivity].
Qed.

Lemma lstrip_all_space (s : string) : all_space s = true -> str_lstrip s = "".
Proof.
  induction s as [|c s IH]; [reflexivity|].
  rewrite all_space_cons. cbn [str_lstrip].
  destruct (is_space c); [exact IH | discriminate].
Qed.

Lemma rstrip_all_space (s : string) : all_space s = true -> str_rstrip s = "".
Proof.
  induction s as [|c s IH]; [reflexivity|].
  rewrite all_space_cons. intros Hs. apply andb_true_iff in Hs as [Hc Hs].
  cbn [str_rstrip]. now rewrite (IH Hs), Hc.
Qed.

Lemma rstrip_app (s post : string) :
  all_space post = true -> str_rstrip (s ++ post) = str_rstrip s.
Proof.
  intros Hpost. induction s as [|c s IH].
  - rewrite app_empty_l. now apply rstrip_all_space.
  - rewrite app_cons. cbn [str_rstrip]. now rewrite IH.
Qed.

(** X20.  White space around the key in the key file does not count:
    the key handed to the signer, and from which the public key is
    made, is the text between. *)
Theorem key_file_space_stripped (filename pre s post : string) (h : Host) :
  all_space pre = true -> all_space post = true ->
  read_text filename = inl (pre ++ s ++ post) ->
  str_strip (pre ++ s ++ post) = str_strip s /\
  _read_signing_keys (Some filename) h =
    (Done (generate_pubkey (str_strip s), str_strip s), h).
Proof.
  intros Hpre Hpost Hread.
  assert (Hstrip : str_strip (pre ++ s ++ post) = str_strip s).
  { unfold str_strip. rewrite (lstrip_app pre), Hpre, (lstrip_app s).
    destruct (all_space s) eqn:Hs.
    - now rewrite (lstrip_all_space post Hpost), (lstrip_all_space s Hs).
    - now apply rstrip_app. }
  split; [exact Hstrip|].
  rewrite read_signing_keys_run. cbn [key_filename]. now rewrite Hread, Hstrip.
Qed.

End KeyFileFacts.

(* ------------------------------------------------------------------ *)
(** ** The listing commands and the dispatch                           *)
(* ------------------------------------------------------------------ *)

Section DispatchFacts.
Context `{Collab} `{Platform} `{Console}.

Lemma list_command_run (subtree : string)
    (listing : State -> string -> result Output) (args : Args.t) (h : Host) :
  exists r h',
    list_command subtree listing args h = (r, h') /\
    world h' = world h /\ written h' = written h /\ sent h' = sent h /\
    (printed h' = printed h \/ exists out, printed h' = (printed h ++ [out])%list).
Proof.
  unfold list_command.
  destruct (list_state (Args.url args) subtree) as [msg|state] eqn:Hstate.
  - do 2 eexists. split; [reflexivity|]. split_ands; auto.
  - destruct (listing state (Args.format args)) as [out|e] eqn:Hout.
    + destruct out as [calls|rows|hd sec items|hd sec items];
        try (do 2 eexists; split; [reflexivity|]; cbn; split_ands; eauto).
      destruct (forallb csv_accepts rows);
        do 2 eexists; (split; [reflexivity|]); cbn; split_ands; eauto.
    + do 2 eexists. split; [reflexivity|]. split_ands; auto.
Qed.





(** X22.  Only the two create subcommands sign, write or send:
    [do_identity] run on anything else, a listing or a subcommand it
    does not know, leaves the world of the builders, the files and the
    batches sent as they were, and prints one output at most. *)
Theorem do_identity_signs_only_on_create (args : Args.t) (h : Host) :
  String.eqb (Args.subcommand args) "policy" && String.eqb (Args.policy_cmd args) "create"
    = false ->
  String.eqb (Args.subcommand args) "role" && String.eqb (Args.role_cmd args) "create"
    = false ->
  exists r h',
    do_identity args h = (r, h') /\
    world h' = world h /\ written h' = written h /\ sent h' = sent h /\
    (printed h' = printed h \/ exists out, printed h' = (printed h ++ [out])%list).
Proof.
  intros Hpolicy Hrole. unfold do_identity. rewrite Hpolicy, Hrole.
  destruct (String.eqb (Args.subcommand args) "policy"
            && String.eqb (Args.policy_cmd args) "list").
  - destruct (list_command_run (IDENTITY_NAMESPACE ++ _POLICY_PREFIX)
                _do_identity_policy_list args h)
      as (r & h' & Hrun & Hw & Hf & Hs & Hp).
    exists r, h'. split; [exact Hrun|]. split_ands; assumption.
  - destruct (String.eqb (Args.subcommand args) "role"
              && String.eqb (Args.role_cmd args) "list").
    + destruct (list_command_run (IDENTITY_NAMESPACE ++ _ROLE_PREFIX)
                  _do_identity_role_list args h)
        as (r & h' & Hrun & Hw & Hf & Hs & Hp).
      exists r, h'. split; [exact Hrun|]. split_ands; assumption.
    + do 2 eexists. split; [reflexivity|]. split_ands; auto.
Qed.

End DispatchFacts.

(* ------------------------------------------------------------------ *)
(** ** The commands run on the stand-ins                               *)
(* ------------------------------------------------------------------ *)

Section CommandExamples.

Lemma example_key_file :
  @read_text stand_in_platform (@key_filename stand_in_platform None) =
    inl ("  " ++ example_key ++ nl).
Proof. reflexivity. Qed.

Lemma example_key_stripped : str_strip ("  " ++ example_key ++ nl) = example_key.
Proof. vm_compute. reflexivity. Qed.


Lemma listing_doc_one_per_name_witness :
  exists out,
    @_do_identity_policy_list stand_in example_state "yaml" = Ok out /\
    NoDup (names_shown out).
Proof.
  destruct (@listing_doc_one_per_name stand_in example_state "yaml" eq_refl)
    as [Hpolicy _].
  destruct (Hpolicy _ example_fetched) as (out & Hout & Hnodup & _).
  exists out. split; assumption.
Defined.

Lemma create_key_unreadable_witness :
  @create_command stand_in stand_in_platform CreateRole missing_key_args fresh_host =
    (Failed (CliException
       "Unable to read key file: [Errno 2] No such file or directory: missing.priv"),
     fresh_host).
Proof.
  apply (@create_key_unreadable stand_in stand_in_platform CreateRole missing_key_args
           fresh_host "[Errno 2] No such file or directory: missing.priv").
  reflexivity.
Defined.

Lemma policy_create_bad_rule_witness :
  @_do_identity_policy_create stand_in stand_in_platform bad_rule_args fresh_host =
    (Failed (Exn IndexError), fresh_host).
Proof.
  apply (@policy_create_bad_rule stand_in stand_in_platform bad_rule_args fresh_host
           ("  " ++ example_key ++ nl)).
  - exact example_key_file.
  - reflexivity.
Defined.

Lemma create_writes_file_witness :
  exists txn batch h',
    @create_command stand_in stand_in_platform CreateRole example_args fresh_host =
      (Done tt, h') /\
    written h' = [("role.batch", @batch_list_bytes stand_in_platform (BatchList.mk [batch]))] /\
    sent h' = [] /\
    Batch.transactions batch = [txn] /\
    signed (world h') = [Transaction.header txn; Batch.header batch].
Proof.
  destruct (@create_writes_file stand_in stand_in_platform CreateRole example_args
              fresh_host ("  " ++ example_key ++ nl) "role.batch"
              example_key_file eq_refl eq_refl (fun _ => eq_refl))
    as (txn & batch & h' & Hrun & (Htxns & _ & _ & _ & Hworld) & Hwritten & Hsent & _).
  exists txn, batch, h'. split_ands; try assumption.
  now rewrite Hworld.
Defined.

Lemma create_sends_witness :
  exists txn batch h',
    @create_command stand_in stand_in_platform CreateRole url_args fresh_host =
      (Done tt, h') /\
    sent h' = [("http://localhost:8080", BatchList.mk [batch])] /\
    written h' = [] /\
    Batch.transactions batch = [txn].
Proof.
  destruct (@create_sends stand_in stand_in_platform CreateRole url_args
              fresh_host ("  " ++ example_key ++ nl) "http://localhost:8080"
              example_key_file eq_refl eq_refl eq_refl (fun _ => eq_refl))
    as (txn & batch & h' & Hrun & (Htxns & _) & Hsent & Hwritten & _).
  exists txn, batch, h'. split_ands; assumption.
Defined.

Lemma create_fails_after_signing_witness :
  exists txn batch h',
    @create_command stand_in stand_in_platform CreateRole no_target_args fresh_host =
      (Failed (Exn (AssertionError "No target for create set.")), h') /\
    signed (world h') = [Transaction.header txn; Batch.header batch] /\
    written h' = [] /\ sent h' = [].
Proof.
  destruct (@create_fails_after_signing stand_in stand_in_platform CreateRole
              no_target_args fresh_host ("  " ++ example_key ++ nl)
              example_key_file eq_refl
              (Exn (AssertionError "No target for create set.")))
    as (txn & batch & h' & Hrun & (_ & _ & _ & _ & Hworld) & (Hwritten & Hsent & _)).
  - left. split_ands; reflexivity.
  - exists txn, batch, h'. split_ands; try assumption.
    now rewrite Hworld.
Defined.

Lemma default_key_path_witness :
  @key_filename stand_in_platform None = "/home/alice/.sawtooth/keys/alice.priv".
Proof.
  destruct (@default_key_path stand_in_platform eq_refl) as [Hplain _].
  apply Hplain; [discriminate | reflexivity].
Defined.

Lemma key_file_space_stripped_witness :
  @_read_signing_keys stand_in_platform
     (Some "/home/alice/.sawtooth/keys/alice.priv") fresh_host =
    (Done (@generate_pubkey stand_in_platform (str_strip example_key),
           str_strip example_key), fresh_host).
Proof.
  apply (@key_file_space_stripped stand_in_platform
           "/home/alice/.sawtooth/keys/alice.priv" "  " example_key nl fresh_host);
    reflexivity.
Defined.




Lemma do_identity_signs_only_on_create_witness :
  exists r h',
    @do_identity stand_in stand_in_platform stand_in_console unknown_args fresh_host
      = (r, h') /\
    world h' = world fresh_host /\ written h' = [] /\ sent h' = [].
Proof.
  destruct (@do_identity_signs_only_on_create stand_in stand_in_platform
              stand_in_console unknown_args fresh_host eq_refl eq_refl)
    as (r & h' & Hrun & Hw & Hf & Hs & _).
  exists r, h'. split_ands; assumption.
Defined.

End CommandExamples.
